(** * simple-meeting-note-taker: the VAD segmenter, the transcription
      pipeline and the transcript logger, embedded from the Python sources

    Sources embedded here:
    - [transcript_utils.py]      (class [TranscriptLogger])
    - [whisper_live_faster.py]   (class [FasterWhisperLiveTranscriber])
    - [whisper_live_vad.py]      (class [VADLiveTranscriber])

    Conventions of the embedding.
    - Every Python object is a record that is passed explicitly; a method
      [m(self, args)] becomes a function [m args self] returning the new
      object (and, where the method can raise, an [outcome]).
    - Console output ([print]) carries no state and is left out.
    - External capabilities (the WebRTC classifier, the Whisper back ends,
      Python's number formatting) are Section variables.
    - The wall clock is an input: every call of [datetime.now()] or
      [time.time()] receives its reading as an argument. *)

From Stdlib Require Import ZArith Lia List Bool Ascii String DecimalString.
From Stdlib Require Import PrimFloat Uint63.
From Stdlib Require FloatOps SpecFloat.
From stdpp Require Import base list strings gmap.

Local Open Scope string_scope.
Local Open Scope nat_scope.

(* [0.9] is read as the nearest binary64 value, as Python reads it. *)
#[local] Set Warnings "-inexact-float".

(** ** Results of calls that may raise *)

Inductive outcome (A : Type) : Type :=
| Returned (a : A)
| Raised (exn : string).
Arguments Returned {A} a.
Arguments Raised {A} exn.

(** ** Python string helpers (ASCII range) *)

Definition nl : string := String (ascii_of_nat 10) EmptyString.

(** [s * n] *)
Fixpoint str_repeat (s : string) (n : nat) : string :=
  match n with
  | O => ""
  | S k => s ++ str_repeat s k
  end.

Definition is_lower (c : ascii) : bool :=
  (97 <=? nat_of_ascii c) && (nat_of_ascii c <=? 122).
Definition is_upper (c : ascii) : bool :=
  (65 <=? nat_of_ascii c) && (nat_of_ascii c <=? 90).
Definition to_upper (c : ascii) : ascii :=
  if is_lower c then ascii_of_nat (nat_of_ascii c - 32) else c.
Definition to_lower (c : ascii) : ascii :=
  if is_upper c then ascii_of_nat (nat_of_ascii c + 32) else c.

(** [s.upper()] *)
Fixpoint str_upper (s : string) : string :=
  match s with
  | EmptyString => EmptyString
  | String c r => String (to_upper c) (str_upper r)
  end.

(** [s.title()]: a cased character is upper-cased when the character before
    it is uncased (or it is the first one) and lower-cased otherwise. *)
Fixpoint str_title_from (prev_cased : bool) (s : string) : string :=
  match s with
  | EmptyString => EmptyString
  | String c r =>
      let cased := is_lower c || is_upper c in
      String (if prev_cased then to_lower c else to_upper c)
             (str_title_from cased r)
  end.
Definition str_title (s : string) : string := str_title_from false s.

(** [s.replace('_', ' ')] *)
Fixpoint str_replace_underscore (s : string) : string :=
  match s with
  | EmptyString => EmptyString
  | String c r =>
      String (if Ascii.eqb c "_"%char then " "%char else c)
             (str_replace_underscore r)
  end.

(** Whitespace removed by [str.strip()], within ASCII. *)
Definition is_space (c : ascii) : bool :=
  let n := nat_of_ascii c in
  ((9 <=? n) && (n <=? 13)) || ((28 <=? n) && (n <=? 32)).

Fixpoint lstrip (s : string) : string :=
  match s with
  | EmptyString => EmptyString
  | String c r => if is_space c then lstrip r else s
  end.

Fixpoint rstrip (s : string) : string :=
  match s with
  | EmptyString => EmptyString
  | String c r =>
      match rstrip r with
      | EmptyString => if is_space c then EmptyString else String c EmptyString
      | r' => String c r'
      end
  end.

Definition str_strip (s : string) : string := rstrip (lstrip s).

(** [sep.join(parts)] *)
Definition str_join (sep : string) (parts : list string) : string :=
  String.concat sep parts.

Definition str_of_nat (n : nat) : string :=
  NilZero.string_of_uint (Nat.to_uint n).

Definition pad2 (n : nat) : string :=
  if n <? 10 then "0" ++ str_of_nat n else str_of_nat n.

Definition pad4 (n : nat) : string :=
  if n <? 10 then "000" ++ str_of_nat n
  else if n <? 100 then "00" ++ str_of_nat n
  else if n <? 1000 then "0" ++ str_of_nat n
  else str_of_nat n.

(** ** [datetime] and the three [strftime] formats the sources use *)

Record datetime : Type := mk_datetime {
  dt_year : nat; dt_month : nat; dt_day : nat;
  dt_hour : nat; dt_minute : nat; dt_second : nat
}.

(** [strftime("%H:%M:%S")] *)
Definition strftime_hms (d : datetime) : string :=
  pad2 (dt_hour d) ++ ":" ++ pad2 (dt_minute d) ++ ":" ++ pad2 (dt_second d).

(** [strftime('%Y%m%d_%H%M%S')] *)
Definition strftime_compact (d : datetime) : string :=
  pad4 (dt_year d) ++ pad2 (dt_month d) ++ pad2 (dt_day d) ++ "_" ++
  pad2 (dt_hour d) ++ pad2 (dt_minute d) ++ pad2 (dt_second d).

(** [strftime('%Y-%m-%d %H:%M:%S')] *)
Definition strftime_full (d : datetime) : string :=
  pad4 (dt_year d) ++ "-" ++ pad2 (dt_month d) ++ "-" ++ pad2 (dt_day d) ++
  " " ++ strftime_hms d.

(** ** Python values stored in the logger's dictionaries

    [None], [str], [int], [float] and a list of floats (the
    [transcription_times] the transcriber stores in the metadata). *)

Inductive value : Type :=
| VNone
| VStr (s : string)
| VInt (z : Z)
| VFloat (x : float)
| VFloats (l : list float).

(** A [dict] with string keys: insertion-ordered, keys unique. *)
Definition dict : Type := list (string * value).

Fixpoint dict_get (k : string) (d : dict) : option value :=
  match d with
  | [] => None
  | (k', v) :: r => if String.eqb k k' then Some v else dict_get k r
  end.

(** [d[k] = v]: an existing key keeps its position, a new key goes last. *)
Fixpoint dict_set (k : string) (v : value) (d : dict) : dict :=
  match d with
  | [] => [(k, v)]
  | (k', v') :: r =>
      if String.eqb k k' then (k, v) :: r else (k', v') :: dict_set k v r
  end.

(** The dictionary display that unpacks [d] and then [extra]. *)
Definition dict_update (d extra : dict) : dict :=
  fold_left (fun acc kv => dict_set (fst kv) (snd kv) acc) extra d.

(** Truth value of an object ([if x:]). *)
Definition truthy (v : value) : bool :=
  match v with
  | VNone => false
  | VStr s => negb (String.eqb s "")
  | VInt z => negb (Z.eqb z 0)
  | VFloat x => negb (PrimFloat.eqb x 0%float)
  | VFloats l => match l with [] => false | _ => true end
  end.

(** ** A file system: directories and regular files by path *)

Record filesystem : Type := mk_fs {
  fs_dirs : gset string;
  fs_files : gmap string string
}.

(** [os.path.exists] *)
Definition path_exists (p : string) (fs : filesystem) : bool :=
  bool_decide (p ∈ fs_dirs fs) || bool_decide (is_Some (fs_files fs !! p)).

(** [os.makedirs]: the empty path cannot be created. *)
Definition makedirs (p : string) (fs : filesystem) : outcome filesystem :=
  if String.eqb p "" then Raised "FileNotFoundError"
  else Returned (mk_fs ({[ p ]} ∪ fs_dirs fs) (fs_files fs)).

Fixpoint ends_with_slash (s : string) : bool :=
  match s with
  | EmptyString => false
  | String c EmptyString => Ascii.eqb c "/"%char
  | String _ r => ends_with_slash r
  end.

(** [os.path.join(a, b)] for a relative [b]. *)
Definition path_join (a b : string) : string :=
  if String.eqb a "" || ends_with_slash a then a ++ b else a ++ "/" ++ b.

(** ** [transcript_utils.py]: class [TranscriptLogger] *)

Module TranscriptLogger.

Record t : Type := mk {
  tool_name : string;
  model_name : string;
  session_start_time : option datetime;
  transcript_entries : list dict;
  session_metadata : dict
}.

(** [__init__] *)
Definition init (tool model : string) : t :=
  mk tool model None [] [].

(** [start_session] with its keyword dictionary [metadata]; [now] is the reading of [datetime.now()]. *)
Definition start_session (metadata : dict) (now : datetime) (lg : t) : t :=
  mk (tool_name lg) (model_name lg) (Some now) [] metadata.

(** The dictionary [add_transcript] builds: a missing or empty [timestamp]
    is replaced by the current time, then come the text and the keywords. *)
Definition make_entry (text : string) (timestamp : option string)
    (extra_data : dict) (now : datetime) : dict :=
  let timestamp :=
    match timestamp with
    | Some ts => if String.eqb ts "" then strftime_hms now else ts
    | None => strftime_hms now
    end in
  dict_update [("timestamp", VStr timestamp); ("text", VStr text)] extra_data.

(** [add_transcript]: [timestamp] defaults to [None], [extra_data] is the
    keyword dictionary. *)
Definition add_transcript (text : string) (timestamp : option string)
    (extra_data : dict) (now : datetime) (lg : t) : t :=
  mk (tool_name lg) (model_name lg) (session_start_time lg)
     ((transcript_entries lg ++ [make_entry text timestamp extra_data now])%list)
     (session_metadata lg).

(** [self.session_metadata[k] = v], as the transcriber's [stop] does. *)
Definition set_metadata (k : string) (v : value) (lg : t) : t :=
  mk (tool_name lg) (model_name lg) (session_start_time lg)
     (transcript_entries lg) (dict_set k v (session_metadata lg)).

(** [get_continuous_transcript], [get_transcript_count], [clear_transcript] *)
Definition entry_text (entry : dict) : option string :=
  match dict_get "text" entry with
  | Some (VStr s) => Some s
  | _ => None
  end.

Definition get_transcript_count (lg : t) : nat :=
  length (transcript_entries lg).

Definition clear_transcript (lg : t) : t :=
  mk (tool_name lg) (model_name lg) (session_start_time lg) []
     (session_metadata lg).

(** A call of one of the methods that change the entries or the metadata
    of a running session. *)
Inductive call : Type :=
| CallAdd (text : string) (timestamp : option string) (extra_data : dict)
          (now : datetime)
| CallSetMetadata (k : string) (v : value)
| CallClear.

Definition run_call (lg : t) (c : call) : t :=
  match c with
  | CallAdd text timestamp extra_data now =>
      add_transcript text timestamp extra_data now lg
  | CallSetMetadata k v => set_metadata k v lg
  | CallClear => clear_transcript lg
  end.

Definition run_calls (calls : list call) (lg : t) : t :=
  fold_left run_call calls lg.

(** The entries a sequence of calls leaves, from an empty list. *)
Definition entries_step (acc : list dict) (c : call) : list dict :=
  match c with
  | CallAdd text timestamp extra_data now =>
      (acc ++ [make_entry text timestamp extra_data now])%list
  | CallSetMetadata _ _ => acc
  | CallClear => []
  end.

Definition entries_of_calls (calls : list call) : list dict :=
  fold_left entries_step calls [].

(** *** Writing to an open file

    A computation that writes chunks to the open file and may raise; the
    chunks written before the exception stay in the file. *)

Definition writer (A : Type) : Type := list string -> option A * list string.

Definition wret {A} (a : A) : writer A := fun buf => (Some a, buf).
Definition wraise {A} : writer A := fun buf => (None, buf).
Definition write (s : string) : writer unit := fun buf => (Some tt, (buf ++ [s])%list).
Definition wbind {A B} (m : writer A) (k : A -> writer B) : writer B :=
  fun buf =>
    match m buf with
    | (Some a, buf') => k a buf'
    | (None, buf') => (None, buf')
    end.
Definition wlift {A} (o : option A) : writer A :=
  match o with Some a => wret a | None => wraise end.

#[export] Instance writer_bind : MBind writer :=
  fun A B k m => wbind m k.

Fixpoint for_each {A} (l : list A) (body : A -> writer unit) : writer unit :=
  match l with
  | [] => wret tt
  | x :: r => body x ;; for_each r body
  end.

(** [enumerate(l, start)] *)
Fixpoint enumerate {A} (start : nat) (l : list A) : list (nat * A) :=
  match l with
  | [] => []
  | x :: r => (start, x) :: enumerate (S start) r
  end.

Fixpoint all_some {A} (l : list (option A)) : option (list A) :=
  match l with
  | [] => Some []
  | Some a :: r => match all_some r with Some r' => Some (a :: r') | None => None end
  | None :: _ => None
  end.

Section Formatting.

(** Python's conversions of a value inside an f-string:
    [py_str v] is [f"{v}"]; [py_format_2f v] is [f"{v:.2f}"], [None] when
    the format raises; [py_mean l] is [sum(l) / len(l)] on floats. *)
Variable py_str : value -> string.
Variable py_format_2f : value -> option string.
Variable py_mean : list float -> float.

(** One extra key of an entry (the loop body over [entry.items()]). *)
Definition write_entry_item (kv : string * value) : writer unit :=
  let '(key, v) := kv in
  if String.eqb key "timestamp" || String.eqb key "text" then wret tt
  else if String.eqb key "confidence" then
    (s ← wlift (py_format_2f v);
     write (str_title key ++ ": " ++ s ++ nl))
  else if String.eqb key "duration" then
    (s ← wlift (py_format_2f v);
     write ("Processing time: " ++ s ++ "s" ++ nl))
  else write (str_title key ++ ": " ++ py_str v ++ nl).

Definition write_entry (ie : nat * dict) : writer unit :=
  let '(i, entry) := ie in
  ts ← wlift (dict_get "timestamp" entry);
  write ("[" ++ py_str ts ++ "] Segment " ++ str_of_nat i ++ nl) ;;
  tx ← wlift (dict_get "text" entry);
  write ("Text: " ++ py_str tx ++ nl) ;;
  for_each entry write_entry_item ;;
  write (str_repeat "-" 50 ++ nl ++ nl).

(** The average line, written when [transcription_times] is in the
    metadata and is truthy. *)
Definition write_performance (metadata : dict) : writer unit :=
  match dict_get "transcription_times" metadata with
  | None => wret tt
  | Some times =>
      if truthy times then
        match times with
        | VFloats l =>
            (s ← wlift (py_format_2f (VFloat (py_mean l)));
             write ("Average transcription time: " ++ s ++ "s" ++ nl))
        | _ => wraise
        end
      else wret tt
  end.

(** [_write_transcript_content(f)]; [now] is the reading of
    [datetime.now()] for the "Session ended" line. *)
Definition write_transcript_content (now : datetime) (lg : t) : writer unit :=
  write (str_repeat "=" 70 ++ nl) ;;
  write (str_upper (tool_name lg) ++ " TRANSCRIPTION SESSION" ++ nl) ;;
  write (str_repeat "=" 70 ++ nl) ;;
  start ← wlift (session_start_time lg);
  write ("Session started: " ++ strftime_full start ++ nl) ;;
  write ("Session ended: " ++ strftime_full now ++ nl) ;;
  write ("Tool: " ++ tool_name lg ++ nl) ;;
  write ("Model: " ++ model_name lg ++ nl) ;;
  for_each (session_metadata lg) (fun kv =>
    write (str_title (str_replace_underscore (fst kv)) ++ ": " ++
           py_str (snd kv) ++ nl)) ;;
  write ("Total segments: " ++ str_of_nat (length (transcript_entries lg)) ++ nl) ;;
  write_performance (session_metadata lg) ;;
  write (nl ++ str_repeat "=" 70 ++ nl) ;;
  write ("DETAILED TRANSCRIPT" ++ nl) ;;
  write (str_repeat "=" 70 ++ nl ++ nl) ;;
  for_each (enumerate 1 (transcript_entries lg)) write_entry ;;
  write (str_repeat "=" 70 ++ nl) ;;
  write ("CONTINUOUS TRANSCRIPT" ++ nl) ;;
  write (str_repeat "=" 70 ++ nl ++ nl) ;;
  texts ← wlift (all_some (map entry_text (transcript_entries lg)));
  write (str_join " " texts) ;;
  write nl.

(** [open(filename, 'w')] succeeds when the parent is a directory and the
    name is not one. *)
Definition can_open_for_write (parent filename : string) (fs : filesystem) : bool :=
  bool_decide (parent ∈ fs_dirs fs) && negb (bool_decide (filename ∈ fs_dirs fs)).

(** [if not os.path.exists(output_dir): os.makedirs(output_dir)] *)
Definition ensure_output_dir (output_dir : string) (fs : filesystem)
    : outcome filesystem :=
  if path_exists output_dir fs then Returned fs else makedirs output_dir fs.

Definition transcript_filename (output_dir : string) (start : datetime) : string :=
  path_join output_dir ("transcript_" ++ strftime_compact start ++ ".txt").

(** [save_transcript(output_dir)]: the returned value ([None] or the path),
    or the exception that escapes, and the file system afterwards. *)
Definition save_transcript (output_dir : string) (now : datetime) (lg : t)
    (fs : filesystem) : outcome (option string) * filesystem :=
  match transcript_entries lg, session_start_time lg with
  | [], _ => (Returned None, fs)
  | _ :: _, None => (Returned None, fs)
  | _ :: _, Some start =>
      match ensure_output_dir output_dir fs with
      | Raised e => (Raised e, fs)
      | Returned fs1 =>
          let filename := transcript_filename output_dir start in
          if can_open_for_write output_dir filename fs1 then
            let '(r, chunks) := write_transcript_content now lg [] in
            let fs2 :=
              mk_fs (fs_dirs fs1)
                    (<[ filename := str_join "" chunks ]> (fs_files fs1)) in
            match r with
            | Some _ => (Returned (Some filename), fs2)
            | None => (Returned None, fs2)
            end
          else (Returned None, fs1)
      end
  end.

(** [get_continuous_transcript]: the texts joined by single spaces; [None]
    when an entry has no text or a text that is not a string, which makes
    [join] raise. *)
Definition get_continuous_transcript (lg : t) : option string :=
  match all_some (map entry_text (transcript_entries lg)) with
  | Some texts => Some (str_join " " texts)
  | None => None
  end.

(** [create_transcript_logger(tool_name, model_name)] *)
Definition create_transcript_logger (tool model : string) : t :=
  init tool model.

(** [save_simple_transcript(text, tool_name, model_name)]; the three
    readings of the clock are those of [start_session], [add_transcript]
    and [save_transcript]. *)
Definition save_simple_transcript (text tool model : string)
    (now_start now_add now_save : datetime) (fs : filesystem)
    : outcome (option string) * filesystem :=
  let logger := init tool model in
  let logger := start_session [] now_start logger in
  let logger := add_transcript text None [] now_add logger in
  save_transcript "transcripts" now_save logger fs.

(** A dictionary without the key [k]. *)
Definition dict_remove (k : string) (d : dict) : dict :=
  List.filter (fun kv => negb (String.eqb (fst kv) k)) d.

(** [logger.add_transcript] called with the keywords of [segment]: the key
    [text] is required (a call
    without it raises [TypeError]); [timestamp] is optional and replaced by
    the current time when its value is false; the other keys are the extra
    data. The text is stored whatever its type. *)
Definition add_segment (segment : dict) (now : datetime) (lg : t) : outcome t :=
  match dict_get "text" segment with
  | None => Raised "TypeError"
  | Some text =>
      let timestamp :=
        match dict_get "timestamp" segment with
        | Some ts => if truthy ts then ts else VStr (strftime_hms now)
        | None => VStr (strftime_hms now)
        end in
      let extra_data := dict_remove "timestamp" (dict_remove "text" segment) in
      let entry :=
        dict_update [("timestamp", timestamp); ("text", text)] extra_data in
      Returned (mk (tool_name lg) (model_name lg) (session_start_time lg)
                   ((transcript_entries lg ++ [entry])%list)
                   (session_metadata lg))
  end.

(** The loop over [segments] that calls [add_transcript] with each;
    [clock i] is the reading of the clock in the call for segment [i]. *)
Fixpoint add_segments (segments : list dict) (clock : nat -> datetime)
    (i : nat) (lg : t) : outcome t :=
  match segments with
  | [] => Returned lg
  | segment :: rest =>
      match add_segment segment (clock i) lg with
      | Returned lg' => add_segments rest clock (S i) lg'
      | Raised e => Raised e
      end
  end.

(** [save_transcript_from_segments], [metadata] being its keyword
    dictionary. *)
Definition save_transcript_from_segments (segments : list dict)
    (tool model : string) (metadata : dict)
    (now_start : datetime) (clock : nat -> datetime) (now_save : datetime)
    (fs : filesystem) : outcome (option string) * filesystem :=
  let logger := init tool model in
  let logger := start_session metadata now_start logger in
  match add_segments segments clock 0 logger with
  | Returned logger => save_transcript "transcripts" now_save logger fs
  | Raised e => (Raised e, fs)
  end.

End Formatting.

End TranscriptLogger.

Local Open Scope list_scope.

(** ** Audio frames, segments and the ring buffer *)

(** A frame is the [bytes] object returned by one [stream.read]. *)
Definition frame : Type := list Byte.byte.

Definition sample_rate : Z := 16000.
Definition channels : nat := 1.
Definition chunk_size : nat := 480.
Definition sample_width : nat := 2.
Definition frame_duration_ms : nat := 30.
Definition padding_duration_ms : nat := 300.

(** [padding_duration_ms // frame_duration_ms] *)
Definition ring_buffer_size : nat := padding_duration_ms / frame_duration_ms.

(** The WAV file written by [save_audio_segment]; the queue carries its
    name, which stands here for the file itself. *)
Record segment : Type := mk_segment {
  seg_channels : nat;
  seg_sampwidth : nat;
  seg_framerate : Z;
  seg_frames : list frame
}.

(** [b''.join(frames)], the payload of the file. *)
Definition seg_payload (s : segment) : list Byte.byte :=
  List.concat (seg_frames s).

Definition save_audio_segment (frames : list frame) : segment :=
  mk_segment channels sample_width sample_rate frames.

(** [collections.deque(maxlen=n).append(x)]: append on the right and, when
    the length then exceeds [maxlen], drop the leftmost element. *)
Definition deque_append {A : Type} (maxlen : nat) (x : A) (d : list A) : list A :=
  let d' := d ++ [x] in
  if maxlen <? length d' then tail d' else d'.

(** [len([f for f, speech in ring_buffer if speech])] and its negation *)
Definition num_voiced (rb : list (frame * bool)) : nat :=
  length (List.filter (fun p => snd p) rb).
Definition num_unvoiced (rb : list (frame * bool)) : nat :=
  length (List.filter (fun p => negb (snd p)) rb).

(** Conversion of a Python [int] to a binary64 float. *)
Definition float_of_nat (n : nat) : float :=
  PrimFloat.of_uint63 (Uint63.of_Z (Z.of_nat n)).

(** [count > 0.9 * maxlen], the comparison of both transitions: the product
    is a binary64 product, and the integer count, far below 2^53, is compared
    with it at its exact value. *)
Definition exceeds_threshold (count maxlen : nat) : bool :=
  PrimFloat.ltb (PrimFloat.mul 0.9%float (float_of_nat maxlen))
                (float_of_nat count).

(** ** State shared by the two VAD transcribers

    [whisper_live_faster.py] and [whisper_live_vad.py] have the same
    attributes for capture and hand-off and the same [is_speech],
    [save_audio_segment] and [record_audio_vad]; they are embedded once. *)

(** A [threading.Thread] attribute: [None], started, or run to its end. *)
Inductive thread : Type := NotStarted | Running | Finished.

Record capture : Type := mk_capture {
  is_recording : bool;
  triggered : bool;
  ring_buffer : list (frame * bool);
  voiced_frames : list frame;
  audio_queue : list segment;
  recording_thread : thread;
  transcription_thread : thread
}.

(** [__init__]: the attributes before [start]. *)
Definition init_capture : capture :=
  mk_capture false false [] [] [] NotStarted NotStarted.

Definition set_is_recording (b : bool) (c : capture) : capture :=
  mk_capture b (triggered c) (ring_buffer c) (voiced_frames c)
             (audio_queue c) (recording_thread c) (transcription_thread c).
Definition set_audio_queue (q : list segment) (c : capture) : capture :=
  mk_capture (is_recording c) (triggered c) (ring_buffer c) (voiced_frames c)
             q (recording_thread c) (transcription_thread c).
Definition set_recording_thread (th : thread) (c : capture) : capture :=
  mk_capture (is_recording c) (triggered c) (ring_buffer c) (voiced_frames c)
             (audio_queue c) th (transcription_thread c).
Definition set_transcription_thread (th : thread) (c : capture) : capture :=
  mk_capture (is_recording c) (triggered c) (ring_buffer c) (voiced_frames c)
             (audio_queue c) (recording_thread c) th.
Definition set_segmenter (tr : bool) (rb : list (frame * bool))
    (vf : list frame) (q : list segment) (c : capture) : capture :=
  mk_capture (is_recording c) tr rb vf q
             (recording_thread c) (transcription_thread c).

(** [queue.Queue.put]: first in, first out; the head is the next [get]. *)
Definition queue_put (x : segment) (c : capture) : capture :=
  set_audio_queue (audio_queue c ++ [x]) c.

(** One [stream.read]: a frame, or an exception of the device. *)
Inductive read_outcome : Type :=
| ReadOk (f : frame)
| ReadError.

Section Segmenter.

(** [webrtcvad.Vad.is_speech(frame, sample_rate)]; [None] when it raises. *)
Variable vad_is_speech : frame -> Z -> option bool.

(** [is_speech(self, frame)] *)
Definition is_speech (f : frame) : bool :=
  match vad_is_speech f sample_rate with
  | Some b => b
  | None => false
  end.

(** The two branches of the loop body of [record_audio_vad], for a frame
    [f] whose classification is [speech]. *)
Definition segment_step (f : frame) (speech : bool) (c : capture) : capture :=
  if negb (triggered c) then
    let rb := deque_append ring_buffer_size (f, speech) (ring_buffer c) in
    if exceeds_threshold (num_voiced rb) ring_buffer_size then
      set_segmenter true [] (voiced_frames c ++ map fst rb) (audio_queue c) c
    else
      set_segmenter false rb (voiced_frames c) (audio_queue c) c
  else
    let vf := voiced_frames c ++ [f] in
    let rb := deque_append ring_buffer_size (f, speech) (ring_buffer c) in
    if exceeds_threshold (num_unvoiced rb) ring_buffer_size then
      let q := if 10 <? length vf
               then audio_queue c ++ [save_audio_segment vf]
               else audio_queue c in
      set_segmenter false [] [] q c
    else
      set_segmenter true rb vf (audio_queue c) c.

(** The body of the [while] loop once the frame is read:
    [is_speech = self.is_speech(frame)], then the branches. *)
Definition process_frame (f : frame) (c : capture) : capture :=
  segment_step f (is_speech f) c.

(** The [while self.is_recording] loop over the reads the device delivers.
    The boolean tells whether the loop was left (flag cleared, or an exception
    of [stream.read]); [false] means the thread waits at the loop head for
    the next frame. *)
Fixpoint record_loop (reads : list read_outcome) (c : capture) : capture * bool :=
  if is_recording c then
    match reads with
    | [] => (c, false)
    | ReadError :: _ => (c, true)
    | ReadOk f :: rest => record_loop rest (process_frame f c)
    end
  else (c, true).

(** The [finally] clause: what is left in [voiced_frames] is queued. *)
Definition record_finally (c : capture) : capture :=
  match voiced_frames c with
  | [] => c
  | _ :: _ => queue_put (save_audio_segment (voiced_frames c)) c
  end.

(** [record_audio_vad], the body of the recording thread, run over [reads].
    A failure of [p.open] has the effect of [ReadError] as first read. *)
Definition record_audio_vad (reads : list read_outcome) (c : capture) : capture :=
  match recording_thread c with
  | Running =>
      let '(c', exited) := record_loop reads c in
      if exited then set_recording_thread Finished (record_finally c') else c'
  | _ => c
  end.

(** [self.recording_thread.join()] with the flag cleared: the thread leaves
    its loop at the next test and runs its [finally] clause. *)
Definition join_recording (c : capture) : capture :=
  record_audio_vad [] c.

(** The first lines of both [stop] methods: clear the flag and queue what
    is in [voiced_frames]. *)
Definition stop_flush (c : capture) : capture :=
  let c1 := set_is_recording false c in
  match voiced_frames c1 with
  | [] => c1
  | _ :: _ => queue_put (save_audio_segment (voiced_frames c1)) c1
  end.

(** The test of both [transcribe_worker] loops:
    [self.is_recording or not self.audio_queue.empty()] *)
Definition worker_guard (c : capture) : bool :=
  is_recording c || negb (match audio_queue c with [] => true | _ => false end).

End Segmenter.

(** ** The Whisper back ends *)

(** A loaded model, identified by the arguments it was loaded with. *)
Record model_handle : Type := mk_model {
  mh_name : string;
  mh_device : string;
  mh_compute_type : string
}.

(** What [model.transcribe] yields for one file: the texts of the result
    segments and the detected language with its probability. *)
Record transcription : Type := mk_transcription {
  tr_texts : list string;
  tr_language : string;
  tr_language_probability : float
}.

(** The clock readings of one turn of the worker: [datetime.now()] and the
    difference of the two [time.time()] readings. *)
Record tick : Type := mk_tick {
  tick_now : datetime;
  tick_elapsed : float
}.

(** ** [whisper_live_faster.py]: class [FasterWhisperLiveTranscriber] *)

Module FasterWhisperLiveTranscriber.

Record t : Type := mk {
  model_name : string;
  device : string;
  compute_type : string;
  vad_mode : Z;
  model : option model_handle;
  cap : capture;
  transcription_times : list float;
  total_segments : nat;
  transcript_logger : TranscriptLogger.t
}.

(** [__init__(model_name, device, compute_type, vad_mode)] *)
Definition init (name dev ct : string) (mode : Z) : t :=
  mk name dev ct mode None init_capture [] 0
     (TranscriptLogger.init "faster-whisper" name).

Definition set_cap (c : capture) (w : t) : t :=
  mk (model_name w) (device w) (compute_type w) (vad_mode w) (model w) c
     (transcription_times w) (total_segments w) (transcript_logger w).
Definition set_logger (lg : TranscriptLogger.t) (w : t) : t :=
  mk (model_name w) (device w) (compute_type w) (vad_mode w) (model w) (cap w)
     (transcription_times w) (total_segments w) lg.
Definition set_model (dev ct : string) (m : model_handle) (w : t) : t :=
  mk (model_name w) dev ct (vad_mode w) (Some m) (cap w)
     (transcription_times w) (total_segments w) (transcript_logger w).
Definition record_timing (elapsed : float) (w : t) : t :=
  mk (model_name w) (device w) (compute_type w) (vad_mode w) (model w) (cap w)
     (transcription_times w ++ [elapsed]) (S (total_segments w))
     (transcript_logger w).

Section Backend.

Variable vad_is_speech : frame -> Z -> option bool.
(** [WhisperModel(name, device=, compute_type=)]; [None] when it raises. *)
Variable WhisperModel : string -> string -> string -> option model_handle.
(** [model.transcribe(file, ...)] with the iteration over its segments;
    [None] when either raises. *)
Variable transcribe : model_handle -> segment -> option transcription.
Variable py_str : value -> string.
Variable py_format_2f : value -> option string.
Variable py_mean : list float -> float.

(** [load_model] *)
Definition load_model (w : t) : outcome t :=
  match WhisperModel (model_name w) (device w) (compute_type w) with
  | Some m => Returned (set_model (device w) (compute_type w) m w)
  | None =>
      (* the except clause *)
      match WhisperModel (model_name w) "cpu" "int8" with
      | Some m => Returned (set_model "cpu" "int8" m w)
      | None => Raised "ModelLoadError"
      end
  end.

(** [start], up to the launch of the two threads; the loop that then keeps
    the main thread waiting changes nothing. *)
Definition start (now : datetime) (w : t) : outcome t :=
  match (match model w with
         | None => load_model w
         | Some _ => Returned w
         end) with
  | Raised e => Raised e
  | Returned w1 =>
      let lg :=
        TranscriptLogger.start_session
          [("device", VStr (device w1));
           ("compute_type", VStr (compute_type w1));
           ("vad_mode", VInt (vad_mode w1))]
          now (transcript_logger w1) in
      let c :=
        set_transcription_thread Running
          (set_recording_thread Running
             (set_is_recording true (cap w1))) in
      Returned (set_cap c (set_logger lg w1))
  end.

(** The recording thread run over [reads]. *)
Definition record (reads : list read_outcome) (w : t) : t :=
  set_cap (record_audio_vad vad_is_speech reads (cap w)) w.

(** One turn of the loop of [transcribe_worker]. *)
Definition worker_turn (tk : tick) (w : t) : t :=
  match audio_queue (cap w) with
  | [] => w                                 (* queue.Empty: continue *)
  | audio_file :: rest =>
      let w1 := set_cap (set_audio_queue rest (cap w)) w in
      match model w1 with
      | None => w1                          (* except Exception *)
      | Some m =>
          match transcribe m audio_file with
          | None => w1                      (* except Exception *)
          | Some tr =>
              let w2 := record_timing (tick_elapsed tk) w1 in
              let text := str_strip (String.concat "" (tr_texts tr)) in
              if String.eqb text "" then w2
              else
                set_logger
                  (TranscriptLogger.add_transcript text
                     (Some (strftime_hms (tick_now tk)))
                     [("language", VStr (tr_language tr));
                      ("confidence", VFloat (tr_language_probability tr));
                      ("duration", VFloat (tick_elapsed tk))]
                     (tick_now tk) (transcript_logger w2))
                  w2
          end
      end
  end.

(** The loop of [transcribe_worker], one tick per turn; when the ticks run
    out the thread is still in its loop. *)
Fixpoint worker_loop (ticks : list tick) (w : t) : t :=
  if worker_guard (cap w) then
    match ticks with
    | [] => w
    | tk :: rest => worker_loop rest (worker_turn tk w)
    end
  else set_cap (set_transcription_thread Finished (cap w)) w.

Definition transcribe_worker (ticks : list tick) (w : t) : t :=
  match transcription_thread (cap w) with
  | Running => worker_loop ticks w
  | _ => w
  end.

(** [self.transcription_thread.join()] with the flag cleared and the
    producer finished: one turn per queued file, [clock i] being the
    readings of turn [i]. *)
Definition join_transcription (clock : nat -> tick) (w : t) : t :=
  transcribe_worker (map clock (seq 0 (length (audio_queue (cap w))))) w.

(** [stop]: the flush, the two joins, then the transcript is saved. *)
Definition stop (clock : nat -> tick) (now : datetime) (w : t)
    (fs : filesystem) : outcome t * filesystem :=
  let w1 := set_cap (stop_flush (cap w)) w in
  let w2 := set_cap (join_recording vad_is_speech (cap w1)) w1 in
  let w3 := join_transcription clock w2 in
  let lg :=
    TranscriptLogger.set_metadata "transcription_times"
      (VFloats (transcription_times w3)) (transcript_logger w3) in
  let w4 := set_logger lg w3 in
  match TranscriptLogger.save_transcript py_str py_format_2f py_mean
          "transcripts" now lg fs with
  | (Returned _, fs') => (Returned w4, fs')
  | (Raised e, fs') => (Raised e, fs')
  end.

End Backend.

End FasterWhisperLiveTranscriber.

(** ** [whisper_live_vad.py]: class [VADLiveTranscriber] *)

Module VADLiveTranscriber.

Record t : Type := mk {
  model_name : string;
  vad_mode : Z;
  model : option model_handle;
  cap : capture
}.

(** [__init__(model_name, vad_mode)] *)
Definition init (name : string) (mode : Z) : t :=
  mk name mode None init_capture.

Definition set_cap (c : capture) (w : t) : t :=
  mk (model_name w) (vad_mode w) (model w) c.

Section Backend.

Variable vad_is_speech : frame -> Z -> option bool.
(** [whisper.load_model(name)]; [None] when it raises. *)
Variable whisper_load_model : string -> option model_handle.

(** [load_model] *)
Definition load_model (w : t) : outcome t :=
  match whisper_load_model (model_name w) with
  | Some m => Returned (mk (model_name w) (vad_mode w) (Some m) (cap w))
  | None => Raised "ModelLoadError"
  end.

(** [start], up to the launch of the two threads. *)
Definition start (w : t) : outcome t :=
  match (match model w with
         | None => load_model w
         | Some _ => Returned w
         end) with
  | Raised e => Raised e
  | Returned w1 =>
      Returned
        (set_cap
           (set_transcription_thread Running
              (set_recording_thread Running
                 (set_is_recording true (cap w1)))) w1)
  end.

Definition record (reads : list read_outcome) (w : t) : t :=
  set_cap (record_audio_vad vad_is_speech reads (cap w)) w.

(** One turn of the loop of [transcribe_worker]: the result of
    [model.transcribe], or its exception, is only printed, so a turn that
    gets a file just consumes it. *)
Definition worker_turn (w : t) : t :=
  match audio_queue (cap w) with
  | [] => w
  | _ :: rest => set_cap (set_audio_queue rest (cap w)) w
  end.

Fixpoint worker_loop (turns : nat) (w : t) : t :=
  if worker_guard (cap w) then
    match turns with
    | O => w
    | S k => worker_loop k (worker_turn w)
    end
  else set_cap (set_transcription_thread Finished (cap w)) w.

Definition transcribe_worker (turns : nat) (w : t) : t :=
  match transcription_thread (cap w) with
  | Running => worker_loop turns w
  | _ => w
  end.

Definition join_transcription (w : t) : t :=
  transcribe_worker (length (audio_queue (cap w))) w.

(** [stop] *)
Definition stop (w : t) : t :=
  let w1 := set_cap (stop_flush (cap w)) w in
  let w2 := set_cap (join_recording vad_is_speech (cap w1)) w1 in
  join_transcription w2.

End Backend.

End VADLiveTranscriber.

(** ** [whisper_live.py]: class [LiveTranscriber] *)

Module LiveTranscriber.

(** [float(z)] of a Python [int]. *)
Definition py_float (z : Z) : float :=
  if (z <? 0)%Z then PrimFloat.opp (PrimFloat.of_uint63 (Uint63.of_Z (- z)))
  else PrimFloat.of_uint63 (Uint63.of_Z z).

(** [int(x)] of a float: truncation towards zero; [None] for an infinity
    or a NaN, on which [int] raises. *)
Definition py_int_of_float (x : float) : option Z :=
  match FloatOps.Prim2SF x with
  | SpecFloat.S754_zero _ => Some 0%Z
  | SpecFloat.S754_finite sign m e =>
      let magnitude :=
        if (0 <=? e)%Z then (Zpos m * 2 ^ e)%Z else (Zpos m / 2 ^ (- e))%Z in
      Some (if sign then (- magnitude)%Z else magnitude)
  | _ => None
  end.

Definition chunk_size : Z := 1024.

(** [int(self.sample_rate / self.chunk_size * self.chunk_duration)] *)
Definition reads_per_chunk (chunk_duration : Z) : option Z :=
  py_int_of_float
    (PrimFloat.mul (PrimFloat.div (py_float sample_rate) (py_float chunk_size))
                   (py_float chunk_duration)).

(** The attributes, and the place of the recording thread in its loops:
    its local list [frames] and the iterations its [for] loop has left. *)
Record t : Type := mk {
  model_name : string;
  chunk_duration : Z;
  model : option model_handle;
  is_recording : bool;
  audio_queue : list segment;
  recording_thread : thread;
  transcription_thread : thread;
  transcript_logger : TranscriptLogger.t;
  frames : list frame;
  reads_left : nat
}.

(** [__init__(model_name, chunk_duration)] *)
Definition init (name : string) (duration : Z) : t :=
  mk name duration None false [] NotStarted NotStarted
     (TranscriptLogger.init "basic-whisper" name) [] 0.

Definition set_recorder (q : list segment) (fr : list frame) (left : nat)
    (w : t) : t :=
  mk (model_name w) (chunk_duration w) (model w) (is_recording w) q
     (recording_thread w) (transcription_thread w) (transcript_logger w)
     fr left.
Definition set_threads (rec : bool) (rth tth : thread) (w : t) : t :=
  mk (model_name w) (chunk_duration w) (model w) rec (audio_queue w)
     rth tth (transcript_logger w) (frames w) (reads_left w).
Definition set_worker (q : list segment) (lg : TranscriptLogger.t) (w : t) : t :=
  mk (model_name w) (chunk_duration w) (model w) (is_recording w) q
     (recording_thread w) (transcription_thread w) lg
     (frames w) (reads_left w).

(** One iteration of the [for] loop that reads: the data is appended; after
    the last iteration the chunk is written to a WAV file and queued, and
    the next turn of the [while] loop starts with an empty list and [n]
    iterations. *)
Definition after_read (n : nat) (data : frame) (w : t) : t :=
  let acc := frames w ++ [data] in
  match reads_left w with
  | S (S k) => set_recorder (audio_queue w) acc (S k) w
  | _ => set_recorder (audio_queue w ++ [save_audio_segment acc]) [] n w
  end.

(** The loops of [record_audio_chunk] over the reads the device delivers,
    [n] being the iterations of the [for] loop. The flag is tested before
    every read. With [n = 0] the [for] loop never reads and the [while] loop
    turns without effect. The boolean tells whether the loops were left. *)
Fixpoint record_loop (n : nat) (reads : list read_outcome) (w : t) : t * bool :=
  if is_recording w then
    match n with
    | O => (w, false)
    | S _ =>
        match reads with
        | [] => (w, false)
        | ReadError :: _ => (w, true)
        | ReadOk data :: rest => record_loop n rest (after_read n data w)
        end
    end
  else (w, true).

(** [record_audio_chunk], the body of the recording thread: when the loops
    are left, by the cleared flag or by an exception, the thread ends and
    its local [frames] with it; nothing is queued then. *)
Definition record_audio_chunk (reads : list read_outcome) (w : t) : t :=
  match recording_thread w with
  | Running =>
      match reads_per_chunk (chunk_duration w) with
      | None =>
          set_recorder (audio_queue w) [] 0
            (set_threads (is_recording w) Finished (transcription_thread w) w)
      | Some z =>
          let '(w', exited) := record_loop (Z.to_nat z) reads w in
          if exited then
            set_recorder (audio_queue w') [] 0
              (set_threads (is_recording w') Finished
                           (transcription_thread w') w')
          else w'
      end
  | _ => w
  end.

Section Backend.

(** [whisper.load_model(name)] and [model.transcribe(file, fp16=False)];
    [None] when they raise. *)
Variable whisper_load_model : string -> option model_handle.
Variable transcribe : model_handle -> segment -> option transcription.
Variable py_str : value -> string.
Variable py_format_2f : value -> option string.
Variable py_mean : list float -> float.

(** [start], up to the launch of the two threads. *)
Definition start (now : datetime) (w : t) : outcome t :=
  match (match model w with
         | Some m => Some m
         | None => whisper_load_model (model_name w)
         end) with
  | None => Raised "ModelLoadError"
  | Some m =>
      let lg :=
        TranscriptLogger.start_session
          [("chunk_duration", VInt (chunk_duration w))] now
          (transcript_logger w) in
      let left :=
        match reads_per_chunk (chunk_duration w) with
        | Some z => Z.to_nat z
        | None => 0
        end in
      Returned (mk (model_name w) (chunk_duration w) (Some m) true
                   (audio_queue w) Running Running lg [] left)
  end.

(** One turn of the loop of [transcribe_worker]. *)
Definition worker_turn (now : datetime) (w : t) : t :=
  match audio_queue w with
  | [] => w
  | audio_file :: rest =>
      let w1 := set_worker rest (transcript_logger w) w in
      match model w1 with
      | None => w1
      | Some m =>
          match transcribe m audio_file with
          | None => w1
          | Some tr =>
              let text := str_strip (String.concat "" (tr_texts tr)) in
              if String.eqb text "" then w1
              else
                set_worker rest
                  (TranscriptLogger.add_transcript text
                     (Some (strftime_hms now))
                     [("language", VStr (tr_language tr))]
                     now (transcript_logger w1))
                  w1
          end
      end
  end.

Fixpoint worker_loop (nows : list datetime) (w : t) : t :=
  if is_recording w || negb (match audio_queue w with [] => true | _ => false end)
  then
    match nows with
    | [] => w
    | now :: rest => worker_loop rest (worker_turn now w)
    end
  else set_threads (is_recording w) (recording_thread w) Finished w.

Definition transcribe_worker (nows : list datetime) (w : t) : t :=
  match transcription_thread w with
  | Running => worker_loop nows w
  | _ => w
  end.

(** [stop]: the flag is cleared, the two threads are joined (the recording
    thread leaves its loops at its next test of the flag, the worker takes
    one turn per queued file), and the transcript is saved. Nothing is
    flushed: this [stop] queues nothing. *)
Definition stop (clock : nat -> datetime) (now : datetime) (w : t)
    (fs : filesystem) : outcome t * filesystem :=
  let w1 := set_threads false (recording_thread w) (transcription_thread w) w in
  let w2 := record_audio_chunk [] w1 in
  let w3 :=
    transcribe_worker (map clock (seq 0 (length (audio_queue w2)))) w2 in
  match TranscriptLogger.save_transcript py_str py_format_2f py_mean
          "transcripts" now (transcript_logger w3) fs with
  | (Returned _, fs') => (Returned w3, fs')
  | (Raised e, fs') => (Raised e, fs')
  end.

End Backend.

End LiveTranscriber.

Module L := LiveTranscriber.

Module F := FasterWhisperLiveTranscriber.
Module V := VADLiveTranscriber.

(** ** Concrete frames, classifier and back ends for the examples *)

Module Demo.

(** 30 ms of 16-bit samples: 960 bytes. *)
Definition silence : frame := repeat Byte.x00 960.
Definition voice : frame := repeat Byte.x7f 960.
Definition malformed : frame := [Byte.x01; Byte.x02; Byte.x03].

(** A classifier in the manner of WebRTC VAD: it raises on a frame of the
    wrong length and otherwise reports whether the first sample is zero. *)
Definition vad (f : frame) (rate : Z) : option bool :=
  if (length f =? 960) && (rate =? 16000)%Z then
    match f with
    | Byte.x00 :: _ => Some false
    | _ => Some true
    end
  else None.

(** The capture state right after [start]. *)
Definition started : capture :=
  set_transcription_thread Running
    (set_recording_thread Running (set_is_recording true init_capture)).

(** Frames fed to the loop body one after the other. *)
Definition feed (fs : list frame) (c : capture) : capture :=
  fold_left (fun c f => process_frame vad f c) fs c.

(** A back end on which only the CPU configuration loads. *)
Definition cpu_only (name dev ct : string) : option model_handle :=
  if String.eqb dev "cpu" then Some (mk_model name dev ct) else None.

(** A back end on which nothing loads. *)
Definition no_backend (name dev ct : string) : option model_handle := None.

Definition transcribe_ok (m : model_handle) (s : segment) : option transcription :=
  Some (mk_transcription [" hello "; "world "] "en" 1%float).

Definition py_str (v : value) : string :=
  match v with
  | VStr s => s
  | VInt z => str_of_nat (Z.to_nat z)
  | VNone => "None"
  | VFloat _ => "<float>"
  | VFloats _ => "<floats>"
  end.
Definition py_format_2f (v : value) : option string :=
  match v with
  | VFloat _ => Some "0.00"
  | VInt _ => Some "0.00"
  | _ => None
  end.
Definition py_mean (l : list float) : float := 0%float.

(** The stream of the specification's end-to-end test: 20 silent frames,
    40 voiced ones, 20 silent ones. *)
Definition stream : list read_outcome :=
  map ReadOk (repeat silence 20 ++ repeat voice 40 ++ repeat silence 20).

Definition noon : datetime := mk_datetime 2025 1 2 12 0 0.
Definition later : datetime := mk_datetime 2025 1 2 12 30 5.
Definition clock (i : nat) : tick := mk_tick later 1%float.

Definition empty_fs : filesystem := mk_fs ∅ ∅.
(** A file system in which [transcripts] is a regular file. *)
Definition blocked_fs : filesystem := mk_fs ∅ {[ "transcripts" := "x" ]}.

(** A session of the faster-whisper transcriber configured for CUDA, on
    the machine where only the CPU loads, started at noon. *)
Definition faster_new : F.t := F.init "base" "cuda" "float16" 2.
Definition faster_started : F.t :=
  match F.start cpu_only noon faster_new with
  | Returned w => w
  | Raised _ => faster_new
  end.

(** Ten voiced frames later the segmenter is triggered and holds them. *)
Definition faster_triggered : F.t :=
  F.record vad (map ReadOk (repeat voice 10)) faster_started.

Definition faster_stop (w : F.t) (fs : filesystem) : outcome F.t * filesystem :=
  F.stop vad transcribe_ok py_str py_format_2f py_mean clock later w fs.



(** A logger with a session started at noon and one entry. *)
Definition logger_one : TranscriptLogger.t :=
  TranscriptLogger.add_transcript "hello" None [] later
    (TranscriptLogger.start_session [] noon
       (TranscriptLogger.init "whisper" "base")).

Definition save (dir : string) (lg : TranscriptLogger.t) (fs : filesystem)
    : outcome (option string) * filesystem :=
  TranscriptLogger.save_transcript py_str py_format_2f py_mean dir later lg fs.



(** The same for the plain VAD transcriber. *)
Definition whisper_loads (name : string) : option model_handle :=
  Some (mk_model name "cpu" "float32").
Definition vad_started : V.t :=
  match V.start whisper_loads (V.init "base" 3) with
  | Returned w => w
  | Raised _ => V.init "base" 3
  end.
Definition vad_triggered : V.t :=
  V.record vad (map ReadOk (repeat voice 10)) vad_started.

(** Sessions of the chunked transcriber, with the duration of a chunk in
    seconds. *)
Definition live_started (duration : Z) : L.t :=
  match L.start whisper_loads noon (L.init "base" duration) with
  | Returned w => w
  | Raised _ => L.init "base" duration
  end.

End Demo.

(** ** The configuration dialogue of the two [main] functions *)

Module Main.

Definition faster_models : list string :=
  ["tiny"; "base"; "small"; "medium"; "large-v1"; "large-v2"; "large-v3"].
Definition vad_models : list string :=
  ["tiny"; "base"; "small"; "medium"; "large"].
Definition devices : list string := ["cpu"; "cuda"].

(** The dictionary [compute_types]; [None] is a [KeyError]. *)
Definition compute_types (device : string) : option (list string) :=
  if String.eqb device "cpu" then Some ["int8"; "float32"]
  else if String.eqb device "cuda" then Some ["int8"; "float16"; "float32"]
  else None.

(** [x in l] on strings. *)
Definition str_in (x : string) (l : list string) : bool :=
  existsb (String.eqb x) l.

(** [s or default] *)
Definition or_default (s default : string) : string :=
  if String.eqb s "" then default else s.

Record config : Type := mk_config {
  cfg_model : string;
  cfg_device : string;
  cfg_compute_type : string;
  cfg_vad_mode : Z
}.

Section Dialogue.

(** [str.strip()], and [int(s)] with [None] for [ValueError]. *)
Variable py_strip : string -> string.
Variable py_int : string -> option Z.

(** [input(...).strip() or default], replaced by the default when it is
    not among the choices. *)
Definition choose (raw default : string) (choices : list string) : string :=
  let choice := or_default (py_strip raw) default in
  if str_in choice choices then choice else default.

(** The [try] block that reads the VAD mode. *)
Definition choose_vad_mode (raw : string) : Z :=
  let s := py_strip raw in
  match (if String.eqb s "" then Some 2%Z else py_int s) with
  | Some n => if ((0 <=? n) && (n <? 4))%Z then n else 2%Z
  | None => 2%Z
  end.

(** [main] of [whisper_live_faster.py] up to the construction of the
    transcriber, on the four lines typed; [None] is the [KeyError] of
    [compute_types[device_choice]]. *)
Definition faster_config (model_in device_in compute_in vad_in : string)
    : option config :=
  let model_choice := choose model_in "base" faster_models in
  let device_choice := choose device_in "cpu" devices in
  match compute_types device_choice with
  | None => None
  | Some types =>
      let compute_choice := choose compute_in "int8" types in
      Some (mk_config model_choice device_choice compute_choice
                      (choose_vad_mode vad_in))
  end.

(** [main] of [whisper_live_vad.py], likewise. *)
Definition vad_config (model_in vad_in : string) : string * Z :=
  (choose model_in "base" vad_models, choose_vad_mode vad_in).

End Dialogue.

End Main.

(** ** What the specification says about the thresholds *)

(** "at least 90% of the last N frames": [count / n >= 0.9]. *)
Definition spec_at_least_90_percent (count n : nat) : bool :=
  9 * n <=? 10 * count.

(** ** Predicates of the statements *)

(** The ring buffer never holds more than its ten slots. *)
Definition ring_ok (c : capture) : Prop :=
  length (ring_buffer c) <= ring_buffer_size.

(** [part] occurs in [whole] as a run of consecutive elements, in order. *)
Definition contiguous_in {A : Type} (part whole : list A) : Prop :=
  exists before after, whole = before ++ part ++ after.

(** The frames read before the first exception of the device. *)
Fixpoint delivered (reads : list read_outcome) : list frame :=
  match reads with
  | ReadOk f :: rest => f :: delivered rest
  | _ => []
  end.

(** The segmenter as [__init__] and every offset leave it. *)
Definition segmenter_idle (c : capture) : Prop :=
  triggered c = false /\ ring_buffer c = [] /\ voiced_frames c = [].

(** What holds of the segmenter after the frames [hist] were processed:
    the utterance buffer and the ring buffer end the history, an idle
    segmenter buffers nothing, and every queued segment is a run of it. *)
Record tracks (hist : list frame) (c : capture) : Prop := mk_tracks {
  tracks_voiced : exists before, hist = before ++ voiced_frames c;
  tracks_ring : exists before, hist = before ++ map fst (ring_buffer c);
  tracks_idle : triggered c = false -> voiced_frames c = [];
  tracks_queue :
    Forall (fun seg => contiguous_in (seg_frames seg) hist) (audio_queue c)
}.

(** The shape the segmenter keeps from an idle start: the ring buffer
    within its slots, nothing buffered while idle, and while triggered at
    least the ten frames of the onset plus one per frame in the ring
    buffer. *)
Definition settled (c : capture) : Prop :=
  ring_ok c
  /\ (triggered c = false -> voiced_frames c = [])
  /\ (triggered c = true ->
      10 + length (ring_buffer c) <= length (voiced_frames c)).

(** Frames fed to the loop body one after the other. *)
Definition feed_frames (vad_is_speech : frame -> Z -> option bool)
    (fs : list frame) (c : capture) : capture :=
  fold_left (fun c f => process_frame vad_is_speech f c) fs c.




(** A list that ends with [j] elements satisfying [P]. *)
Definition ends_with_run {A : Type} (P : A -> bool) (j : nat) (d : list A) : Prop :=
  exists old new, d = old ++ new /\ length new = j /\ forallb P new = true.

Definition is_voiced (p : frame * bool) : bool := snd p.
Definition is_unvoiced (p : frame * bool) : bool := negb (snd p).

(** The state of the segmenter is the same in [c'] as in [c]. *)
Definition same_segmenter (c c' : capture) : Prop :=
  triggered c' = triggered c
  /\ ring_buffer c' = ring_buffer c
  /\ voiced_frames c' = voiced_frames c.

(** A writer that raises on no buffer. *)
Definition succeeds {A : Type} (m : TranscriptLogger.writer A) : Prop :=
  forall buf, exists a out, m buf = (Some a, out).

(** An entry that [_write_transcript_content] can write: it has a timestamp
    and a text that is a string, and the values under [confidence] and
    [duration] accept the format [.2f]. *)
Definition entry_writable (py_format_2f : value -> option string)
    (entry : dict) : Prop :=
  is_Some (dict_get "timestamp" entry)
  /\ is_Some (TranscriptLogger.entry_text entry)
  /\ Forall (fun kv => fst kv = "confidence" \/ fst kv = "duration" ->
                       is_Some (py_format_2f (snd kv))) entry.

(** Metadata that can be written: [transcription_times], when present and
    not false, is a list of floats whose mean accepts the format [.2f]. *)
Definition metadata_writable (py_format_2f : value -> option string)
    (py_mean : list float -> float) (metadata : dict) : Prop :=
  match dict_get "transcription_times" metadata with
  | None => True
  | Some times =>
      truthy times = false
      \/ exists l, times = VFloats l
                   /\ is_Some (py_format_2f (VFloat (py_mean l)))
  end.

(** The recording thread of [LiveTranscriber] is inside its [for] loop:
    the frames read and the iterations left make up the [n] of a chunk. *)
Definition in_chunk (n : nat) (w : L.t) : Prop :=
  length (L.frames w) + L.reads_left w = n /\ 1 <= L.reads_left w.

(** * Properties *)

(** ** The ring buffer and the threshold *)

Lemma ring_buffer_size_eq : ring_buffer_size = 10.
Proof. reflexivity. Qed.

(** On the counts a ring buffer of ten slots can give, the binary64
    comparison [count > 0.9 * 10] is the integer comparison [count > 9]. *)
Lemma exceeds_threshold_small (n : nat) :
  n <= 10 -> exceeds_threshold n ring_buffer_size = (9 <? n).
Proof.
  intros Hn.
  do 11 (destruct n as [|n]; [vm_compute; reflexivity|]).
  lia.
Qed.

Lemma deque_append_length {A : Type} (m : nat) (x : A) (d : list A) :
  0 < m -> length d <= m -> length (deque_append m x d) <= m.
Proof.
  intros Hm Hd. unfold deque_append.
  destruct (Nat.ltb_spec m (length (d ++ [x]))) as [Hlt|Hle]; [|exact Hle].
  rewrite length_app in Hlt. simpl in Hlt.
  destruct d as [|y d]; simpl in *; [lia|].
  rewrite length_app. simpl. lia.
Qed.

Lemma deque_append_last {A : Type} (m : nat) (x : A) (d : list A) :
  0 < m -> exists pre, deque_append m x d = pre ++ [x].
Proof.
  intros Hm. unfold deque_append.
  destruct (Nat.ltb_spec m (length (d ++ [x]))) as [Hlt|Hle].
  - destruct d as [|y d]; simpl in *; [lia|]. now exists d.
  - now exists d.
Qed.

(** The deque stays a suffix of what was pushed into it. *)
Lemma deque_append_suffix {A : Type} (m : nat) (x : A) (d : list A) :
  exists dropped, dropped ++ deque_append m x d = d ++ [x].
Proof.
  unfold deque_append.
  destruct (Nat.ltb_spec m (length (d ++ [x]))) as [Hlt|Hle].
  - destruct (d ++ [x]) as [|y r] eqn:E.
    + now exists [].
    + now exists [y].
  - now exists [].
Qed.

Lemma num_voiced_le (rb : list (frame * bool)) : num_voiced rb <= length rb.
Proof. unfold num_voiced. apply List.filter_length_le. Qed.

Lemma num_unvoiced_le (rb : list (frame * bool)) : num_unvoiced rb <= length rb.
Proof. unfold num_unvoiced. apply List.filter_length_le. Qed.

Lemma segment_step_ring_ok (f : frame) (speech : bool) (c : capture) :
  ring_ok c -> ring_ok (segment_step f speech c).
Proof.
  unfold ring_ok, segment_step. intros H.
  assert (Hd : length (deque_append ring_buffer_size (f, speech) (ring_buffer c))
               <= ring_buffer_size)
    by (apply deque_append_length; [rewrite ring_buffer_size_eq; lia | exact H]).
  destruct (triggered c); simpl;
    match goal with |- context [exceeds_threshold ?a ?b] =>
      destruct (exceeds_threshold a b) end; simpl; auto; lia.
Qed.

(** ** C2: when onset and offset fire *)

Section Thresholds.

Variable vad_is_speech : frame -> Z -> option bool.

Lemma exceeds_threshold_full (k : nat) :
  k <= ring_buffer_size ->
  (exceeds_threshold k ring_buffer_size = true <-> 9 * ring_buffer_size < 10 * k)
  /\ (exceeds_threshold k ring_buffer_size = true <-> k = ring_buffer_size).
Proof.
  intros Hk.
  rewrite (exceeds_threshold_small k)
    by (rewrite ring_buffer_size_eq in Hk; exact Hk).
  rewrite ring_buffer_size_eq in *.
  destruct (Nat.ltb_spec 9 k); split; split; intros;
    first [lia | discriminate | reflexivity].
Qed.

(** C2, amended: with the ring buffer [rb] as it is after the push of the
    current frame, onset fires exactly when the speech frames in [rb] are
    strictly more than 90% of N = 10, that is when all ten slots hold speech;
    offset fires exactly when the non-speech frames are strictly more than
    90% of N, that is when all ten slots hold non-speech. *)
Theorem onset_offset_fire_above_90_percent (f : frame) (c : capture) :
  ring_ok c ->
  let rb := deque_append ring_buffer_size (f, is_speech vad_is_speech f)
                         (ring_buffer c) in
  (triggered c = false ->
     (triggered (process_frame vad_is_speech f c) = true
        <-> 9 * ring_buffer_size < 10 * num_voiced rb)
     /\ (triggered (process_frame vad_is_speech f c) = true
        <-> num_voiced rb = ring_buffer_size))
  /\
  (triggered c = true ->
     (triggered (process_frame vad_is_speech f c) = false
        <-> 9 * ring_buffer_size < 10 * num_unvoiced rb)
     /\ (triggered (process_frame vad_is_speech f c) = false
        <-> num_unvoiced rb = ring_buffer_size)).
Proof.
  intros Hok rb.
  assert (Hlen : length rb <= ring_buffer_size).
  { apply deque_append_length; [rewrite ring_buffer_size_eq; lia | exact Hok]. }
  pose proof (num_voiced_le rb) as Hv.
  pose proof (num_unvoiced_le rb) as Hu.
  destruct (exceeds_threshold_full (num_voiced rb)) as [Hv1 Hv2]; [lia|].
  destruct (exceeds_threshold_full (num_unvoiced rb)) as [Hu1 Hu2]; [lia|].
  unfold process_frame, segment_step. fold rb.
  split; intros Ht; rewrite Ht; simpl.
  - destruct (exceeds_threshold (num_voiced rb) ring_buffer_size) eqn:E; simpl.
    + split; split; intros; try reflexivity; [apply Hv1 | apply Hv2]; reflexivity.
    + split; split; intros H; try discriminate.
      * apply Hv1 in H. discriminate.
      * apply Hv2 in H. discriminate.
  - destruct (exceeds_threshold (num_unvoiced rb) ring_buffer_size) eqn:E; simpl.
    + split; split; intros; try reflexivity; [apply Hu1 | apply Hu2]; reflexivity.
    + split; split; intros H; try discriminate.
      * apply Hu1 in H. discriminate.
      * apply Hu2 in H. discriminate.
Qed.

End Thresholds.

(** Nine voiced frames, then a tenth: onset fires. *)
Lemma onset_offset_fire_above_90_percent_witness :
  let c := Demo.feed (repeat Demo.voice 9) Demo.started in
  ring_ok c
  /\ triggered c = false
  /\ triggered (process_frame Demo.vad Demo.voice c) = true.
Proof.
  split; [vm_compute; lia|]. split; [vm_compute; reflexivity|].
  apply (onset_offset_fire_above_90_percent Demo.vad Demo.voice
           (Demo.feed (repeat Demo.voice 9) Demo.started)).
  - vm_compute. lia.
  - vm_compute. reflexivity.
  - vm_compute. reflexivity.
Defined.

(** C2 as stated fails: after one silent and nine voiced frames the ring
    buffer holds exactly 9 voiced frames of 10, which is at least 90%, and
    the segmenter is still not triggered. *)
Lemma nine_of_ten_voiced_does_not_fire :
  let c := Demo.feed (Demo.silence :: repeat Demo.voice 8) Demo.started in
  let c' := process_frame Demo.vad Demo.voice c in
  triggered c = false
  /\ length (ring_buffer c') = 10
  /\ num_voiced (ring_buffer c') = 9
  /\ spec_at_least_90_percent (num_voiced (ring_buffer c')) ring_buffer_size = true
  /\ triggered c' = false.
Proof. vm_compute. repeat split; reflexivity. Qed.

(** ** C5, C6, C8: what the recording loop queues *)

Section RecordingLoop.

Variable vad_is_speech : frame -> Z -> option bool.

Lemma segment_step_is_recording (f : frame) (speech : bool) (c : capture) :
  is_recording (segment_step f speech c) = is_recording c.
Proof.
  unfold segment_step.
  destruct (triggered c); simpl;
    match goal with |- context [exceeds_threshold ?a ?b] =>
      destruct (exceeds_threshold a b) end; reflexivity.
Qed.

(** One turn of the loop leaves the queue as it is or appends one segment
    of more than ten frames. *)
Lemma segment_step_queue (f : frame) (speech : bool) (c : capture) :
  audio_queue (segment_step f speech c) = audio_queue c
  \/ exists seg,
       audio_queue (segment_step f speech c) = audio_queue c ++ [seg]
       /\ 10 < length (seg_frames seg).
Proof.
  unfold segment_step.
  destruct (triggered c); simpl.
  - destruct (exceeds_threshold _ _); simpl; [|now left].
    destruct (Nat.ltb_spec 10 (length (voiced_frames c ++ [f]))) as [Hlt|Hle].
    + right. eexists. split; [reflexivity|exact Hlt].
    + now left.
  - destruct (exceeds_threshold _ _); simpl; now left.
Qed.

Lemma record_loop_queue (reads : list read_outcome) (c : capture) :
  exists emitted,
    audio_queue (fst (record_loop vad_is_speech reads c)) = audio_queue c ++ emitted
    /\ Forall (fun seg => 10 < length (seg_frames seg)) emitted.
Proof.
  revert c. induction reads as [|r reads IH]; intros c; simpl.
  - exists []. rewrite app_nil_r. destruct (is_recording c); simpl; auto.
  - destruct (is_recording c); simpl.
    2:{ exists []. rewrite app_nil_r. auto. }
    destruct r as [f|]; simpl.
    2:{ exists []. rewrite app_nil_r. auto. }
    destruct (IH (process_frame vad_is_speech f c)) as (em & Hq & Hall).
    unfold process_frame in *.
    destruct (segment_step_queue f (is_speech vad_is_speech f) c)
      as [Hsame|(seg & Hseg & Hlen)].
    + exists em. rewrite Hq, Hsame. auto.
    + exists (seg :: em). rewrite Hq, Hseg, <- app_assoc. simpl. auto.
Qed.

(** C5: whatever the reads, every segment the loop queues (all of them at
    offset transitions) has more than ten frames; an offset that finds ten
    frames or fewer queues nothing and drops them; the flushes of [stop] and
    of the [finally] clause queue what is buffered whatever its length. *)
Theorem no_short_segment_at_offset (reads : list read_outcome) (c : capture) :
  (exists emitted,
     audio_queue (fst (record_loop vad_is_speech reads c)) = audio_queue c ++ emitted
     /\ Forall (fun seg => 10 < length (seg_frames seg)) emitted)
  /\ (forall f : frame,
        triggered c = true ->
        triggered (process_frame vad_is_speech f c) = false ->
        length (voiced_frames c ++ [f]) <= 10 ->
        audio_queue (process_frame vad_is_speech f c) = audio_queue c
        /\ voiced_frames (process_frame vad_is_speech f c) = [])
  /\ (voiced_frames c <> [] ->
        audio_queue (stop_flush c)
          = audio_queue c ++ [save_audio_segment (voiced_frames c)]
        /\ audio_queue (record_finally c)
          = audio_queue c ++ [save_audio_segment (voiced_frames c)]).
Proof.
  split; [apply record_loop_queue|]. split.
  - intros f Ht Hoff Hlen. unfold process_frame, segment_step in *.
    rewrite Ht in *. simpl in *.
    destruct (exceeds_threshold _ _); simpl in *; [|discriminate].
    destruct (Nat.ltb_spec 10 (length (voiced_frames c ++ [f]))); [lia|].
    split; reflexivity.
  - intros Hne. unfold stop_flush, record_finally. simpl.
    destruct (voiced_frames c) eqn:E; [congruence|]. simpl. split; reflexivity.
Qed.

End RecordingLoop.

(** A triggered segmenter holding one frame, nine silent frames in the ring
    buffer: the tenth silent frame is an offset that queues nothing, and a
    flush of the same state queues the single frame. *)
Lemma no_short_segment_at_offset_witness :
  let c := mk_capture true true (repeat (Demo.silence, false) 9)
                      [Demo.voice] [] Running Running in
  (audio_queue (process_frame Demo.vad Demo.silence c) = []
   /\ voiced_frames (process_frame Demo.vad Demo.silence c) = [])
  /\ audio_queue (stop_flush c) = [save_audio_segment [Demo.voice]].
Proof.
  pose proof (no_short_segment_at_offset Demo.vad []
    (mk_capture true true (repeat (Demo.silence, false) 9)
                [Demo.voice] [] Running Running)) as (_ & Hshort & Hflush).
  split.
  - apply (Hshort Demo.silence).
    + reflexivity.
    + vm_compute. reflexivity.
    + simpl. lia.
  - apply Hflush. simpl. discriminate.
Defined.

(** ** C6: segments are runs of the frame stream *)

Lemma contiguous_in_suffix {A : Type} (before part : list A) :
  contiguous_in part (before ++ part).
Proof. exists before, []. now rewrite app_nil_r. Qed.

Lemma contiguous_in_extend {A : Type} (part whole more : list A) :
  contiguous_in part whole -> contiguous_in part (whole ++ more).
Proof.
  intros (b & a & ->). exists b, (a ++ more).
  now rewrite <- !app_assoc.
Qed.

Section ArrivalOrder.

Variable vad_is_speech : frame -> Z -> option bool.

Lemma tracks_segment_step (hist : list frame) (f : frame) (speech : bool)
    (c : capture) :
  tracks hist c -> tracks (hist ++ [f]) (segment_step f speech c).
Proof.
  intros [(bv & Hv) (br & Hr) Hidle Hq].
  assert (Hq' : Forall (fun seg => contiguous_in (seg_frames seg) (hist ++ [f]))
                       (audio_queue c)).
  { eapply Forall_impl; [exact Hq|]. intros seg. apply contiguous_in_extend. }
  destruct (deque_append_suffix ring_buffer_size (f, speech) (ring_buffer c))
    as (dropped & Hd).
  assert (Hring : hist ++ [f]
                  = (br ++ map fst dropped)
                    ++ map fst (deque_append ring_buffer_size (f, speech)
                                             (ring_buffer c))).
  { rewrite <- app_assoc, <- map_app, Hd, map_app. simpl.
    rewrite app_assoc. now rewrite <- Hr. }
  unfold segment_step.
  destruct (triggered c) eqn:Ht; simpl.
  - destruct (exceeds_threshold _ _); simpl.
    + constructor; simpl.
      * exists (hist ++ [f]). now rewrite app_nil_r.
      * exists (hist ++ [f]). now rewrite app_nil_r.
      * reflexivity.
      * destruct (10 <? length (voiced_frames c ++ [f])); [|exact Hq'].
        apply Forall_app. split; [exact Hq'|].
        constructor; [|constructor]. simpl.
        exists bv, []. rewrite app_nil_r, app_assoc. now rewrite <- Hv.
    + constructor; simpl.
      * exists bv. rewrite Hv at 1. now rewrite <- app_assoc.
      * eexists. exact Hring.
      * discriminate.
      * exact Hq'.
  - rewrite (Hidle eq_refl) in *. simpl.
    destruct (exceeds_threshold _ _); simpl.
    + constructor; simpl.
      * eexists. exact Hring.
      * exists (hist ++ [f]). now rewrite app_nil_r.
      * discriminate.
      * exact Hq'.
    + constructor; simpl.
      * exists (hist ++ [f]). now rewrite app_nil_r.
      * eexists. exact Hring.
      * reflexivity.
      * exact Hq'.
Qed.

Lemma tracks_record_loop (reads : list read_outcome) (hist : list frame)
    (c : capture) :
  tracks hist c ->
  exists processed after,
    delivered reads = processed ++ after
    /\ tracks (hist ++ processed) (fst (record_loop vad_is_speech reads c)).
Proof.
  revert hist c. induction reads as [|r reads IH]; intros hist c Htr; simpl.
  - exists [], []. split; [reflexivity|]. rewrite app_nil_r.
    destruct (is_recording c); exact Htr.
  - destruct (is_recording c); simpl.
    2:{ exists [], (delivered (r :: reads)). split; [reflexivity|].
        now rewrite app_nil_r. }
    destruct r as [f|]; simpl.
    2:{ exists [], []. split; [reflexivity|]. now rewrite app_nil_r. }
    destruct (IH (hist ++ [f]) (process_frame vad_is_speech f c))
      as (p & a & Hd & Htr').
    { apply tracks_segment_step. exact Htr. }
    exists (f :: p), a. split; [simpl; now rewrite Hd|].
    rewrite <- app_assoc in Htr'. exact Htr'.
Qed.

Lemma tracks_flush (hist : list frame) (c : capture) :
  tracks hist c ->
  Forall (fun seg => contiguous_in (seg_frames seg) hist)
         (audio_queue (record_finally c))
  /\ Forall (fun seg => contiguous_in (seg_frames seg) hist)
            (audio_queue (stop_flush c)).
Proof.
  intros [(bv & Hv) _ _ Hq].
  unfold record_finally, stop_flush. simpl.
  destruct (voiced_frames c) as [|v vs] eqn:E; simpl; [now split|].
  assert (Forall (fun seg => contiguous_in (seg_frames seg) hist)
                 (audio_queue c ++ [save_audio_segment (v :: vs)])).
  { apply Forall_app. split; [exact Hq|]. constructor; [|constructor].
    simpl. rewrite Hv. apply contiguous_in_suffix. }
  now split.
Qed.

Lemma tracks_finished (hist : list frame) (c : capture) :
  tracks hist c -> tracks hist (set_recording_thread Finished (record_finally c)).
Proof.
  intros Htr. destruct (tracks_flush hist c Htr) as [Hq' _].
  destruct Htr as [Hv Hr Hidle Hq].
  unfold record_finally in *.
  destruct (voiced_frames c) eqn:E; constructor; simpl; rewrite ?E; auto.
Qed.

Lemma tracks_weaken (hist more : list frame) (q : list segment) :
  Forall (fun seg => contiguous_in (seg_frames seg) hist) q ->
  Forall (fun seg => contiguous_in (seg_frames seg) (hist ++ more)) q.
Proof.
  intros H. eapply Forall_impl; [exact H|].
  intros seg. apply contiguous_in_extend.
Qed.

(** C6: from an idle segmenter with an empty queue, every segment queued
    by the recording thread, and by a [stop] that follows it, is a run of
    consecutive frames of the stream in their order of arrival; and at an
    onset the utterance buffer receives all the frames of the ring buffer in
    their order, classified speech or not, the ring buffer is emptied, and
    the frame that crossed the threshold is the last of at most N. *)
Theorem segments_keep_arrival_order (reads : list read_outcome) (c : capture) :
  segmenter_idle c ->
  audio_queue c = [] ->
  Forall (fun seg => contiguous_in (seg_frames seg) (delivered reads))
         (audio_queue (record_audio_vad vad_is_speech reads c))
  /\ Forall (fun seg => contiguous_in (seg_frames seg) (delivered reads))
            (audio_queue (stop_flush (record_audio_vad vad_is_speech reads c)))
  /\ (forall (f : frame) (c1 : capture),
        ring_ok c1 ->
        triggered c1 = false ->
        triggered (process_frame vad_is_speech f c1) = true ->
        let rb := deque_append ring_buffer_size (f, is_speech vad_is_speech f)
                               (ring_buffer c1) in
        voiced_frames (process_frame vad_is_speech f c1)
          = voiced_frames c1 ++ map fst rb
        /\ ring_buffer (process_frame vad_is_speech f c1) = []
        /\ exists lead_in,
             map fst rb = lead_in ++ [f] /\ length lead_in < ring_buffer_size).
Proof.
  intros (Ht & Hrb & Hvf) Hq.
  assert (Htr : tracks [] c).
  { constructor.
    - exists []. now rewrite Hvf.
    - exists []. now rewrite Hrb.
    - intros _. exact Hvf.
    - rewrite Hq. constructor. }
  destruct (tracks_record_loop reads [] c Htr) as (p & a & Hd & Hloop).
  simpl in Hloop.
  assert (Hboth :
    Forall (fun seg => contiguous_in (seg_frames seg) (delivered reads))
           (audio_queue (record_audio_vad vad_is_speech reads c))
    /\ Forall (fun seg => contiguous_in (seg_frames seg) (delivered reads))
              (audio_queue (stop_flush (record_audio_vad vad_is_speech reads c)))).
  { rewrite Hd. unfold record_audio_vad.
    destruct (recording_thread c).
    - destruct (tracks_flush _ _ Htr) as [_ H2]. split.
      + rewrite Hq. constructor.
      + apply (tracks_weaken [] (p ++ a)) in H2. exact H2.
    - destruct (record_loop vad_is_speech reads c) as [c' exited] eqn:E.
      simpl in Hloop. destruct exited.
      + destruct (tracks_flush _ _ Hloop) as [H1 _].
        assert (Hfin : tracks p (set_recording_thread Finished (record_finally c')))
          by (apply tracks_finished; exact Hloop).
        destruct (tracks_flush _ _ Hfin) as [_ H2].
        split; apply tracks_weaken; [exact H1 | exact H2].
      + destruct (tracks_flush _ _ Hloop) as [_ H2].
        split; apply tracks_weaken; [apply Hloop | exact H2].
    - destruct (tracks_flush _ _ Htr) as [_ H2]. split.
      + rewrite Hq. constructor.
      + apply (tracks_weaken [] (p ++ a)) in H2. exact H2. }
  destruct Hboth as [H1 H2]. split; [exact H1|]. split; [exact H2|].
  intros f c1 Hok Ht1 Hon rb.
  unfold process_frame, segment_step in *. rewrite Ht1 in *. simpl in *.
  fold rb in Hon |- *.
  destruct (exceeds_threshold (num_voiced rb) ring_buffer_size); simpl in *;
    [|discriminate].
  split; [reflexivity|]. split; [reflexivity|].
  destruct (deque_append_last ring_buffer_size (f, is_speech vad_is_speech f)
              (ring_buffer c1)) as (pre & Hpre).
  { rewrite ring_buffer_size_eq. lia. }
  exists (map fst pre). fold rb in Hpre. rewrite Hpre, map_app. simpl.
  split; [reflexivity|].
  assert (Hlen : length rb <= ring_buffer_size).
  { apply deque_append_length; [rewrite ring_buffer_size_eq; lia | exact Hok]. }
  rewrite Hpre, length_app in Hlen. simpl in Hlen. rewrite length_map. lia.
Qed.

End ArrivalOrder.

(** The stream of 20 silent, 40 voiced and 20 silent frames gives one
    segment: the 40 voiced frames and the 10 silent ones up to the offset. *)
Example end_to_end_one_segment :
  map seg_frames (audio_queue (record_audio_vad Demo.vad Demo.stream Demo.started))
  = [repeat Demo.voice 40 ++ repeat Demo.silence 10].
Proof. vm_compute. reflexivity. Qed.

(** On the stream of 20 silent, 40 voiced and 20 silent frames the queued
    segment is a run of the stream; and an onset after one silent and ten
    voiced frames seeds the buffer with the ten frames of the ring buffer. *)
Lemma segments_keep_arrival_order_witness :
  Forall (fun seg => contiguous_in (seg_frames seg) (delivered Demo.stream))
         (audio_queue (record_audio_vad Demo.vad Demo.stream Demo.started))
  /\ voiced_frames
       (process_frame Demo.vad Demo.voice
          (Demo.feed (Demo.silence :: repeat Demo.voice 9) Demo.started))
     = repeat Demo.voice 10.
Proof.
  pose proof (segments_keep_arrival_order Demo.vad Demo.stream Demo.started)
    as (Hq & _ & Hon).
  - repeat split.
  - reflexivity.
  - split; [exact Hq|].
    destruct (Hon Demo.voice
                (Demo.feed (Demo.silence :: repeat Demo.voice 9) Demo.started))
      as (Hvf & _ & _).
    + vm_compute. lia.
    + vm_compute. reflexivity.
    + vm_compute. reflexivity.
    + rewrite Hvf. vm_compute. reflexivity.
Defined.

(** ** C8: a failure of the classifier *)

Section ClassifierFailure.

Variable vad_is_speech : frame -> Z -> option bool.

Lemma process_frame_is_recording (f : frame) (c : capture) :
  is_recording (process_frame vad_is_speech f c) = is_recording c.
Proof. apply segment_step_is_recording. Qed.

(** While the flag is set and the device delivers frames, the loop is not
    left, whatever the classifier answers or raises. *)
Lemma record_loop_keeps_running (fs : list frame) (c : capture) :
  is_recording c = true ->
  snd (record_loop vad_is_speech (map ReadOk fs) c) = false
  /\ is_recording (fst (record_loop vad_is_speech (map ReadOk fs) c)) = true.
Proof.
  revert c. induction fs as [|f fs IH]; intros c Hrec; simpl; rewrite Hrec.
  - now split.
  - apply IH. now rewrite process_frame_is_recording.
Qed.

(** C8: when the classifier raises on a frame, [is_speech] returns [False]
    for it, the loop handles the frame as a non-speech frame and goes on
    with the frames that follow; no classifier failure makes the recording
    thread leave its loop. *)
Theorem classifier_failure_is_non_speech (f : frame) :
  vad_is_speech f sample_rate = None ->
  is_speech vad_is_speech f = false
  /\ (forall c, process_frame vad_is_speech f c = segment_step f false c)
  /\ (forall rest c,
        is_recording c = true ->
        record_loop vad_is_speech (ReadOk f :: rest) c
          = record_loop vad_is_speech rest (segment_step f false c))
  /\ (forall before after c,
        is_recording c = true ->
        snd (record_loop vad_is_speech (map ReadOk (before ++ f :: after)) c)
          = false).
Proof.
  intros Hfail.
  assert (Hsp : is_speech vad_is_speech f = false)
    by (unfold is_speech; now rewrite Hfail).
  split; [exact Hsp|]. split; [|split].
  - intros c. unfold process_frame. now rewrite Hsp.
  - intros rest c Hrec. simpl. rewrite Hrec. unfold process_frame.
    now rewrite Hsp.
  - intros before after c Hrec. now apply record_loop_keeps_running.
Qed.

End ClassifierFailure.

(** A frame of three bytes makes the classifier raise; the loop goes on
    and the 10 voiced frames after it still trigger the segmenter. *)
Lemma classifier_failure_is_non_speech_witness :
  is_speech Demo.vad Demo.malformed = false
  /\ record_loop Demo.vad
       (ReadOk Demo.malformed :: map ReadOk (repeat Demo.voice 10)) Demo.started
     = record_loop Demo.vad (map ReadOk (repeat Demo.voice 10))
         (segment_step Demo.malformed false Demo.started)
  /\ triggered
       (fst (record_loop Demo.vad
          (ReadOk Demo.malformed :: map ReadOk (repeat Demo.voice 10))
          Demo.started)) = true.
Proof.
  destruct (classifier_failure_is_non_speech Demo.vad Demo.malformed)
    as (H1 & _ & H3 & _).
  - reflexivity.
  - split; [exact H1|]. split.
    + apply H3. reflexivity.
    + vm_compute. reflexivity.
Defined.

(** ** C7: when the transcription worker leaves its loop *)

Lemma worker_guard_false (c : capture) :
  worker_guard c = false <-> is_recording c = false /\ audio_queue c = [].
Proof.
  unfold worker_guard.
  destruct (is_recording c), (audio_queue c); simpl; split;
    try (intros [? ?]); try discriminate; auto.
Qed.

Section FasterWorker.

Import FasterWhisperLiveTranscriber.

Variable transcribe : model_handle -> segment -> option transcription.

Lemma worker_turn_flags (tk : tick) (w : t) :
  is_recording (cap (worker_turn transcribe tk w)) = is_recording (cap w)
  /\ transcription_thread (cap (worker_turn transcribe tk w))
     = transcription_thread (cap w)
  /\ recording_thread (cap (worker_turn transcribe tk w))
     = recording_thread (cap w)
  /\ audio_queue (cap (worker_turn transcribe tk w)) = tail (audio_queue (cap w)).
Proof.
  unfold worker_turn.
  destruct (audio_queue (cap w)) as [|seg rest] eqn:E; simpl.
  - rewrite E. auto.
  - destruct (model w) as [m|]; simpl; auto.
    destruct (transcribe m seg) as [tr|]; simpl; auto.
    destruct (String.eqb _ _); simpl; auto.
Qed.

(** The loop sets the thread to [Finished] only where its test fails. *)
Lemma worker_loop_exit (ticks : list tick) (w : t) :
  transcription_thread (cap w) = Running ->
  transcription_thread (cap (worker_loop transcribe ticks w)) = Finished ->
  is_recording (cap (worker_loop transcribe ticks w)) = false
  /\ audio_queue (cap (worker_loop transcribe ticks w)) = [].
Proof.
  revert w. induction ticks as [|tk ticks IH]; intros w Hrun Hfin; simpl in *.
  - destruct (worker_guard (cap w)) eqn:G; simpl in *.
    + congruence.
    + now apply worker_guard_false.
  - destruct (worker_guard (cap w)) eqn:G; simpl in *.
    + apply IH; [|exact Hfin].
      destruct (worker_turn_flags tk w) as (_ & -> & _). exact Hrun.
    + now apply worker_guard_false.
Qed.

(** With the flag cleared, one turn per queued file empties the queue and
    ends the thread. *)
Lemma worker_loop_drains (ticks : list tick) (w : t) :
  is_recording (cap w) = false ->
  length (audio_queue (cap w)) <= length ticks ->
  transcription_thread (cap (worker_loop transcribe ticks w)) = Finished
  /\ audio_queue (cap (worker_loop transcribe ticks w)) = []
  /\ is_recording (cap (worker_loop transcribe ticks w)) = false.
Proof.
  revert w. induction ticks as [|tk ticks IH]; intros w Hrec Hlen; simpl in *.
  - destruct (audio_queue (cap w)) eqn:E; simpl in *; [|lia].
    unfold worker_guard. rewrite Hrec, E. simpl. rewrite E. auto.
  - destruct (worker_guard (cap w)) eqn:G; simpl.
    + destruct (worker_turn_flags tk w) as (Hr & _ & _ & Hq).
      apply IH; [now rewrite Hr|]. rewrite Hq.
      destruct (audio_queue (cap w)); simpl in *; lia.
    + apply worker_guard_false in G. destruct G as [G1 G2]. auto.
Qed.

(** Every queued file reaches the back end: when the model is loaded and
    transcribes them all, the count of segments grows by their number. *)
Lemma worker_loop_counts (ticks : list tick) (w : t) (m : model_handle) :
  is_recording (cap w) = false ->
  length (audio_queue (cap w)) <= length ticks ->
  model w = Some m ->
  Forall (fun seg => transcribe m seg <> None) (audio_queue (cap w)) ->
  total_segments (worker_loop transcribe ticks w)
  = total_segments w + length (audio_queue (cap w)).
Proof.
  revert w. induction ticks as [|tk ticks IH]; intros w Hrec Hlen Hm Hall;
    simpl in *.
  - destruct (audio_queue (cap w)) eqn:E; simpl in *; [|lia].
    unfold worker_guard. rewrite Hrec, E. simpl. lia.
  - unfold worker_guard. rewrite Hrec. simpl.
    destruct (audio_queue (cap w)) as [|seg rest] eqn:E; simpl; [lia|].
    inversion Hall as [|? ? Hseg Hrest]; subst.
    assert (Hturn :
      let w' := worker_turn transcribe tk w in
      is_recording (cap w') = false /\ audio_queue (cap w') = rest
      /\ model w' = Some m /\ total_segments w' = S (total_segments w)).
    { unfold worker_turn. rewrite E. simpl. rewrite Hm.
      destruct (transcribe m seg) as [tr|]; [|congruence]. simpl.
      destruct (String.eqb _ _); simpl; auto. }
    destruct Hturn as (H1 & H2 & H3 & H4).
    rewrite IH; rewrite ?H2; auto; [lia | simpl in Hlen; lia].
Qed.

End FasterWorker.

Section VadWorker.

Import VADLiveTranscriber.

Lemma vad_worker_loop_exit (turns : nat) (w : t) :
  transcription_thread (cap w) = Running ->
  transcription_thread (cap (worker_loop turns w)) = Finished ->
  is_recording (cap (worker_loop turns w)) = false
  /\ audio_queue (cap (worker_loop turns w)) = [].
Proof.
  revert w. induction turns as [|k IH]; intros w Hrun Hfin; simpl in *.
  - destruct (worker_guard (cap w)) eqn:G; simpl in *.
    + congruence.
    + now apply worker_guard_false.
  - destruct (worker_guard (cap w)) eqn:G; simpl in *.
    + apply IH; [|exact Hfin].
      unfold worker_turn. destruct (audio_queue (cap w)); simpl; exact Hrun.
    + now apply worker_guard_false.
Qed.

Lemma vad_worker_loop_drains (turns : nat) (w : t) :
  is_recording (cap w) = false ->
  length (audio_queue (cap w)) <= turns ->
  transcription_thread (cap (worker_loop turns w)) = Finished
  /\ audio_queue (cap (worker_loop turns w)) = []
  /\ is_recording (cap (worker_loop turns w)) = false.
Proof.
  revert w. induction turns as [|k IH]; intros w Hrec Hlen; simpl in *.
  - destruct (audio_queue (cap w)) eqn:E; simpl in *; [|lia].
    unfold worker_guard. rewrite Hrec, E. simpl. rewrite E. auto.
  - destruct (worker_guard (cap w)) eqn:G; simpl.
    + apply IH.
      * unfold worker_turn. destruct (audio_queue (cap w)); simpl; exact Hrec.
      * unfold worker_turn.
        destruct (audio_queue (cap w)) eqn:E; simpl in *; rewrite ?E; simpl; lia.
    + apply worker_guard_false in G. destruct G as [G1 G2]. auto.
Qed.

End VadWorker.

(** C7: in both transcribers the worker thread ends only at a test of its
    loop that finds the recording flag cleared and the queue empty; and once
    the flag is cleared it does end, after it has taken every queued file to
    the back end. *)
Theorem worker_exits_only_stopped_and_drained
    (transcribe : model_handle -> segment -> option transcription) :
  (forall ticks w,
     transcription_thread (F.cap w) = Running ->
     (transcription_thread (F.cap (F.transcribe_worker transcribe ticks w))
        = Finished ->
      is_recording (F.cap (F.transcribe_worker transcribe ticks w)) = false
      /\ audio_queue (F.cap (F.transcribe_worker transcribe ticks w)) = [])
     /\ (transcription_thread (F.cap (F.transcribe_worker transcribe [] w))
           = Finished
         <-> is_recording (F.cap w) = false /\ audio_queue (F.cap w) = []))
  /\ (forall clock w m,
        transcription_thread (F.cap w) = Running ->
        is_recording (F.cap w) = false ->
        let w' := F.join_transcription transcribe clock w in
        transcription_thread (F.cap w') = Finished
        /\ audio_queue (F.cap w') = []
        /\ (F.model w = Some m ->
            Forall (fun seg => transcribe m seg <> None) (audio_queue (F.cap w)) ->
            F.total_segments w' = F.total_segments w + length (audio_queue (F.cap w))))
  /\ (forall turns w,
        transcription_thread (V.cap w) = Running ->
        (transcription_thread (V.cap (V.transcribe_worker turns w)) = Finished ->
         is_recording (V.cap (V.transcribe_worker turns w)) = false
         /\ audio_queue (V.cap (V.transcribe_worker turns w)) = [])
        /\ (transcription_thread (V.cap (V.transcribe_worker 0 w)) = Finished
            <-> is_recording (V.cap w) = false /\ audio_queue (V.cap w) = []))
  /\ (forall w,
        transcription_thread (V.cap w) = Running ->
        is_recording (V.cap w) = false ->
        transcription_thread (V.cap (V.join_transcription w)) = Finished
        /\ audio_queue (V.cap (V.join_transcription w)) = []).
Proof.
  split; [|split; [|split]].
  - intros ticks w Hrun. split.
    + unfold F.transcribe_worker. rewrite Hrun.
      now apply worker_loop_exit.
    + unfold F.transcribe_worker. rewrite Hrun. simpl.
      destruct (worker_guard (F.cap w)) eqn:G; simpl.
      * split; [congruence|]. intros H. apply worker_guard_false in H.
        congruence.
      * split; [intros _; now apply worker_guard_false | reflexivity].
  - intros clock w m Hrun Hrec w'. subst w'.
    unfold F.join_transcription, F.transcribe_worker. rewrite Hrun.
    assert (Hlen : length (audio_queue (F.cap w))
                   <= length (map clock (seq 0 (length (audio_queue (F.cap w)))))).
    { rewrite length_map, length_seq. lia. }
    destruct (worker_loop_drains transcribe _ w Hrec Hlen) as (H1 & H2 & _).
    split; [exact H1|]. split; [exact H2|].
    intros Hm Hall. now apply (worker_loop_counts transcribe _ w m).
  - intros turns w Hrun. split.
    + unfold V.transcribe_worker. rewrite Hrun.
      now apply vad_worker_loop_exit.
    + unfold V.transcribe_worker. rewrite Hrun. simpl.
      destruct (worker_guard (V.cap w)) eqn:G; simpl.
      * split; [congruence|]. intros H. apply worker_guard_false in H.
        congruence.
      * split; [intros _; now apply worker_guard_false | reflexivity].
  - intros w Hrun Hrec.
    unfold V.join_transcription, V.transcribe_worker. rewrite Hrun.
    destruct (vad_worker_loop_drains (length (audio_queue (V.cap w))) w Hrec)
      as (H1 & H2 & _); [lia|]. now split.
Qed.

(** The triggered session after the flush of [stop]: one file is queued,
    the joined worker transcribes it and ends with an empty queue. *)
Lemma worker_exits_only_stopped_and_drained_witness :
  let w := F.set_cap (stop_flush (F.cap Demo.faster_triggered))
                     Demo.faster_triggered in
  let w' := F.join_transcription Demo.transcribe_ok Demo.clock w in
  length (audio_queue (F.cap w)) = 1
  /\ transcription_thread (F.cap w') = Finished
  /\ audio_queue (F.cap w') = []
  /\ F.total_segments w' = 1.
Proof.
  split; [vm_compute; reflexivity|].
  destruct (worker_exits_only_stopped_and_drained Demo.transcribe_ok)
    as (_ & Hjoin & _).
  destruct (Hjoin Demo.clock
              (F.set_cap (stop_flush (F.cap Demo.faster_triggered))
                         Demo.faster_triggered)
              (mk_model "base" "cpu" "int8"))
    as (H1 & H2 & H3).
  - vm_compute. reflexivity.
  - vm_compute. reflexivity.
  - split; [exact H1|]. split; [exact H2|].
    rewrite H3.
    + vm_compute. reflexivity.
    + vm_compute. reflexivity.
    + apply Forall_forall. intros seg _. discriminate.
Defined.

(** ** C1, C3: the flush of [stop] *)

(** Neither [stop] nor the [finally] clause empties [voiced_frames] after
    queueing it (the offset branch does): a [stop] that finds the recording
    thread alive queues the buffered frames twice. *)
Lemma stop_flush_then_join_queues_twice
    (vad_is_speech : frame -> Z -> option bool) (c : capture) :
  recording_thread c = Running ->
  voiced_frames c <> [] ->
  audio_queue (join_recording vad_is_speech (stop_flush c))
  = audio_queue c ++ [save_audio_segment (voiced_frames c);
                      save_audio_segment (voiced_frames c)].
Proof.
  intros Hrun Hne.
  unfold join_recording, record_audio_vad, stop_flush, record_finally.
  destruct c as [rec tr rb vf q rth tth]. simpl in *. subst rth.
  destruct vf as [|v vs]; [congruence|]. simpl.
  now rewrite <- app_assoc.
Qed.

(** The flush of [stop] repeated: with an empty buffer it changes nothing,
    with frames buffered it queues them again. *)
Lemma stop_flush_twice (c : capture) :
  (voiced_frames c = [] -> stop_flush (stop_flush c) = stop_flush c)
  /\ (voiced_frames c <> [] ->
      audio_queue (stop_flush (stop_flush c))
      = audio_queue (stop_flush c) ++ [save_audio_segment (voiced_frames c)]).
Proof.
  destruct c as [rec tr rb vf q rth tth]. simpl.
  split; intros H.
  - subst vf. reflexivity.
  - destruct vf as [|v vs]; [congruence|]. reflexivity.
Qed.

(** C1 fails on the code: a session stopped while triggered, with the ten
    voiced frames of the onset buffered and an empty queue. The flush of
    [stop] queues one segment of these frames, the [finally] clause of the
    joined recording thread queues the same frames again, and both
    are transcribed. *)
Theorem stop_while_triggered_queues_twice :
  let c := F.cap Demo.faster_triggered in
  let seg := save_audio_segment (repeat Demo.voice 10) in
  (triggered c = true
   /\ voiced_frames c = repeat Demo.voice 10
   /\ audio_queue c = []
   /\ recording_thread c = Running)
  /\ audio_queue (stop_flush c) = [seg]
  /\ audio_queue (join_recording Demo.vad (stop_flush c)) = [seg; seg]
  /\ match Demo.faster_stop Demo.faster_triggered Demo.empty_fs with
     | (Returned w, _) =>
         F.total_segments w = 2
         /\ map TranscriptLogger.entry_text
              (TranscriptLogger.transcript_entries (F.transcript_logger w))
            = [Some "hello world"; Some "hello world"]
     | (Raised _, _) => False
     end.
Proof. vm_compute. repeat split; reflexivity. Qed.

(** C3 fails on the code: the session above is stopped, which ends both
    threads and empties the queue; a second [stop] raises nothing but, the
    frames being still in [voiced_frames], queues them once more, and the
    segment stays in the queue. The same holds of the plain VAD
    transcriber. *)
Theorem second_stop_queues_duplicate :
  let seg := save_audio_segment (repeat Demo.voice 10) in
  match Demo.faster_stop Demo.faster_triggered Demo.empty_fs with
  | (Returned w1, fs1) =>
      audio_queue (F.cap w1) = []
      /\ transcription_thread (F.cap w1) = Finished
      /\ match Demo.faster_stop w1 fs1 with
         | (Returned w2, _) => audio_queue (F.cap w2) = [seg]
         | (Raised _, _) => False
         end
  | (Raised _, _) => False
  end
  /\ audio_queue (V.cap (V.stop Demo.vad Demo.vad_triggered)) = []
  /\ audio_queue (V.cap (V.stop Demo.vad (V.stop Demo.vad Demo.vad_triggered)))
     = [seg].
Proof. vm_compute. repeat split; reflexivity. Qed.

(** ** C4: a model that does not load *)

Section ModelLoading.

Variable WhisperModel : string -> string -> string -> option model_handle.
Variable whisper_load_model : string -> option model_handle.

(** C4, amended: when the model does not load with the configured device
    and compute type, [load_model] itself falls back to the CPU with int8:
    if that loads, [start] goes on with the device and compute type replaced;
    only if that fails too does [start] raise, with nothing started. The
    plain VAD transcriber has no fallback: its [start] raises at once. *)
Theorem load_failure_falls_back_to_cpu_int8 (now : datetime) (w : F.t) :
  F.model w = None ->
  WhisperModel (F.model_name w) (F.device w) (F.compute_type w) = None ->
  (forall m,
     WhisperModel (F.model_name w) "cpu" "int8" = Some m ->
     exists w',
       F.start WhisperModel now w = Returned w'
       /\ F.model w' = Some m
       /\ F.device w' = "cpu"
       /\ F.compute_type w' = "int8"
       /\ is_recording (F.cap w') = true
       /\ recording_thread (F.cap w') = Running
       /\ transcription_thread (F.cap w') = Running)
  /\ (WhisperModel (F.model_name w) "cpu" "int8" = None ->
      F.start WhisperModel now w = Raised "ModelLoadError")
  /\ (forall v : V.t,
        V.model v = None ->
        whisper_load_model (V.model_name v) = None ->
        V.start whisper_load_model v = Raised "ModelLoadError").
Proof.
  intros Hm Hfail. split; [|split].
  - intros m Hcpu. unfold F.start, F.load_model.
    rewrite Hm, Hfail, Hcpu. eexists. split; [reflexivity|].
    simpl. repeat split; reflexivity.
  - intros Hcpu. unfold F.start, F.load_model.
    now rewrite Hm, Hfail, Hcpu.
  - intros v Hv Hload. unfold V.start, V.load_model.
    now rewrite Hv, Hload.
Qed.

End ModelLoading.

(** Configured for CUDA where only the CPU loads: [start] returns a
    running session on the CPU with int8. *)
Lemma load_failure_falls_back_to_cpu_int8_witness :
  exists w',
    F.start Demo.cpu_only Demo.noon Demo.faster_new = Returned w'
    /\ F.model w' = Some (mk_model "base" "cpu" "int8")
    /\ F.device w' = "cpu"
    /\ F.compute_type w' = "int8"
    /\ is_recording (F.cap w') = true
    /\ recording_thread (F.cap w') = Running
    /\ transcription_thread (F.cap w') = Running.
Proof.
  apply (load_failure_falls_back_to_cpu_int8 Demo.cpu_only Demo.whisper_loads
           Demo.noon Demo.faster_new); reflexivity.
Defined.

(** C4 as stated fails: configured for CUDA with float16 where only the
    CPU loads, the load fails, and [start] does not fail: it returns a
    running session on the CPU with int8. *)
Lemma load_failure_is_not_fatal :
  Demo.cpu_only (F.model_name Demo.faster_new) (F.device Demo.faster_new)
                (F.compute_type Demo.faster_new) = None
  /\ F.device Demo.faster_new = "cuda"
  /\ F.start Demo.cpu_only Demo.noon Demo.faster_new = Returned Demo.faster_started
  /\ F.device Demo.faster_started = "cpu"
  /\ F.compute_type Demo.faster_started = "int8"
  /\ F.model Demo.faster_started = Some (mk_model "base" "cpu" "int8")
  /\ is_recording (F.cap Demo.faster_started) = true.
Proof. vm_compute. repeat split; reflexivity. Qed.

(** ** C9: what [save_transcript] returns *)

Section SaveTranscript.

Import TranscriptLogger.

Variable py_str : value -> string.
Variable py_format_2f : value -> option string.
Variable py_mean : list float -> float.

#[local] Abbreviation save := (save_transcript py_str py_format_2f py_mean).
#[local] Abbreviation content :=
  (write_transcript_content py_str py_format_2f py_mean).

(** C9, amended: with no entry or no started session [save_transcript]
    returns [None] and leaves the file system as it is. Otherwise it makes
    sure the directory exists (an exception of [os.makedirs] escapes), and
    returns the path of the file when the file was opened and written; when
    the file cannot be opened, or an exception interrupts the writing, it
    returns [None]. *)
Theorem save_transcript_result (output_dir : string) (now : datetime)
    (lg : t) (fs : filesystem) :
  ((transcript_entries lg = [] \/ session_start_time lg = None) ->
   save output_dir now lg fs = (Returned None, fs))
  /\ (forall start fs1,
        transcript_entries lg <> [] ->
        session_start_time lg = Some start ->
        ensure_output_dir output_dir fs = Returned fs1 ->
        let filename := transcript_filename output_dir start in
        (can_open_for_write output_dir filename fs1 = true ->
         forall chunks,
           content now lg [] = (Some tt, chunks) ->
           save output_dir now lg fs
           = (Returned (Some filename),
              mk_fs (fs_dirs fs1)
                    (<[ filename := str_join "" chunks ]> (fs_files fs1)))
           /\ fs_files (snd (save output_dir now lg fs)) !! filename
              = Some (str_join "" chunks))
        /\ (can_open_for_write output_dir filename fs1 = false ->
            save output_dir now lg fs = (Returned None, fs1))
        /\ (fst (content now lg []) = None ->
            fst (save output_dir now lg fs) = Returned None))
  /\ (forall e,
        transcript_entries lg <> [] ->
        session_start_time lg <> None ->
        ensure_output_dir output_dir fs = Raised e ->
        save output_dir now lg fs = (Raised e, fs)).
Proof.
  split; [|split].
  - intros [He|Hs]; unfold save_transcript.
    + now rewrite He.
    + rewrite Hs. now destruct (transcript_entries lg).
  - intros start fs1 Hne Hs Hdir filename.
    unfold save_transcript. rewrite Hs, Hdir.
    destruct (transcript_entries lg) as [|e es] eqn:E; [congruence|].
    fold filename. split; [|split].
    + intros Hopen chunks Hw. rewrite Hopen, Hw. simpl.
      split; [reflexivity|]. apply lookup_insert_eq.
    + intros Hopen. now rewrite Hopen.
    + intros Hw. destruct (can_open_for_write _ _ _); [|reflexivity].
      destruct (content now lg []) as [[[]|] chunks]; simpl in *;
        [discriminate|reflexivity].
  - intros e Hne Hs Hdir. unfold save_transcript. rewrite Hdir.
    destruct (transcript_entries lg); [congruence|].
    destruct (session_start_time lg); [reflexivity|congruence].
Qed.

End SaveTranscript.

(** One entry, a started session and no directory yet: the directory is
    made and the path of the file is returned. *)
Lemma save_transcript_result_witness :
  fst (Demo.save "transcripts" Demo.logger_one Demo.empty_fs)
  = Returned (Some "transcripts/transcript_20250102_120000.txt").
Proof.
  destruct (save_transcript_result Demo.py_str Demo.py_format_2f Demo.py_mean
              "transcripts" Demo.later Demo.logger_one Demo.empty_fs)
    as (_ & H & _).
  destruct (H Demo.noon (mk_fs ({[ "transcripts" ]} ∪ ∅) ∅)) as (Hok & _).
  - discriminate.
  - reflexivity.
  - reflexivity.
  - destruct (TranscriptLogger.write_transcript_content Demo.py_str
                Demo.py_format_2f Demo.py_mean Demo.later Demo.logger_one [])
      as [[[]|] chunks] eqn:E.
    + destruct (Hok eq_refl chunks eq_refl) as [Hsave _].
      unfold Demo.save. rewrite Hsave. reflexivity.
    + vm_compute in E. discriminate.
Defined.

(** C9 as stated fails: with one entry and a started session, where
    [transcripts] exists as a regular file, the file cannot be opened and
    [save_transcript] returns [None]. *)
Lemma save_returns_none_with_entries :
  TranscriptLogger.transcript_entries Demo.logger_one
    = [[("timestamp", VStr "12:30:05"); ("text", VStr "hello")]]
  /\ TranscriptLogger.session_start_time Demo.logger_one = Some Demo.noon
  /\ Demo.save "transcripts" Demo.logger_one Demo.blocked_fs
     = (Returned None, Demo.blocked_fs).
Proof. vm_compute. repeat split; reflexivity. Qed.

(** ** C10: [start_session] resets the logger *)

Section StartSession.

Import TranscriptLogger.

Variable py_str : value -> string.
Variable py_format_2f : value -> option string.
Variable py_mean : list float -> float.

Lemma run_calls_entries (calls : list call) (lg : t) :
  transcript_entries (run_calls calls lg)
  = fold_left entries_step calls (transcript_entries lg).
Proof.
  revert lg. induction calls as [|c calls IH]; intros lg; [reflexivity|].
  simpl. unfold run_calls in IH. rewrite IH.
  destruct c; reflexivity.
Qed.

(** C10: [start_session] leaves an empty entry list and exactly the given
    metadata; the logger it returns is the one a fresh logger of the same
    tool and model would give, so the entries after any later calls are
    those the calls made, and the transcript saved then is the one a logger
    that never had the earlier entries saves. *)
Theorem start_session_discards_earlier_entries (metadata : dict)
    (now : datetime) (lg : t) :
  transcript_entries (start_session metadata now lg) = []
  /\ session_metadata (start_session metadata now lg) = metadata
  /\ session_start_time (start_session metadata now lg) = Some now
  /\ start_session metadata now lg
     = start_session metadata now (init (tool_name lg) (model_name lg))
  /\ forall calls : list call,
       transcript_entries (run_calls calls (start_session metadata now lg))
       = entries_of_calls calls
       /\ forall output_dir later fs,
            save_transcript py_str py_format_2f py_mean output_dir later
              (run_calls calls (start_session metadata now lg)) fs
            = save_transcript py_str py_format_2f py_mean output_dir later
                (run_calls calls
                   (start_session metadata now
                      (init (tool_name lg) (model_name lg)))) fs.
Proof.
  repeat split; try reflexivity.
  apply run_calls_entries.
Qed.

End StartSession.

(** A logger that holds an entry of an earlier session: after
    [start_session] and one new entry, the earlier text is not in the file. *)
Example earlier_entry_not_saved :
  let lg :=
    TranscriptLogger.add_transcript "new words" (Some "12:30:05") [] Demo.later
      (TranscriptLogger.start_session [] Demo.later Demo.logger_one) in
  map TranscriptLogger.entry_text (TranscriptLogger.transcript_entries lg)
  = [Some "new words"].
Proof. reflexivity. Qed.

(** * Further properties of the code *)

(** ** The segmenter along a stream *)


Section SegmenterAlongStream.

Variable vad_is_speech : frame -> Z -> option bool.




(** The ring buffer never holds more than its ten slots, whatever the
    stream. *)
Theorem ring_buffer_never_overflows (reads : list read_outcome) (c : capture) :
  ring_ok c ->
  ring_ok (record_audio_vad vad_is_speech reads c).
Proof.
  intros Hok. unfold record_audio_vad.
  destruct (recording_thread c); try exact Hok.
  destruct (record_loop vad_is_speech reads c) as [c' exited] eqn:E.
  assert (Hc' : ring_ok c').
  { change c' with (fst (c', exited)). rewrite <- E. clear E.
    revert c Hok. induction reads as [|r reads IH]; intros c Hok; simpl.
    - destruct (is_recording c); exact Hok.
    - destruct (is_recording c); [|exact Hok].
      destruct r as [f|]; [|exact Hok].
      apply IH. now apply segment_step_ring_ok. }
  destruct exited; [|exact Hc'].
  unfold ring_ok, record_finally in *.
  destruct (voiced_frames c'); simpl; exact Hc'.
Qed.


End SegmenterAlongStream.

Lemma ring_buffer_never_overflows_witness :
  ring_ok (record_audio_vad Demo.vad Demo.stream Demo.started).
Proof.
  apply (ring_buffer_never_overflows Demo.vad Demo.stream Demo.started).
  vm_compute. lia.
Defined.


(** ** Runs of frames of one class *)

Lemma ends_with_run_count {A : Type} (P : A -> bool) (j : nat) (d : list A) :
  ends_with_run P j d -> j <= length (List.filter P d).
Proof.
  intros (old & new & -> & <- & Hall).
  rewrite List.filter_app, length_app.
  assert (List.filter P new = new) as ->; [|lia].
  induction new as [|x new IH]; simpl in *; [reflexivity|].
  apply andb_true_iff in Hall as [Hx Hall]. rewrite Hx, IH; auto.
Qed.

Lemma deque_append_run {A : Type} (P : A -> bool) (m j : nat) (x : A)
    (d : list A) :
  0 < m -> length d <= m ->
  ends_with_run P j d -> P x = true ->
  ends_with_run P (Nat.min (S j) m) (deque_append m x d).
Proof.
  intros Hm Hd (old & new & -> & <- & Hall) Hx.
  assert (Hall' : forallb P (new ++ [x]) = true).
  { rewrite forallb_app, Hall. simpl. now rewrite Hx. }
  unfold deque_append. rewrite !length_app in *. cbn [length] in *.
  destruct (Nat.ltb_spec m (length old + length new + 1)) as [Hlt|Hle].
  - destruct old as [|o old]; cbn [length app tail] in *.
    + destruct new as [|n new]; cbn [length app tail] in *; [lia|].
      exists [], (new ++ [x]). split; [reflexivity|].
      rewrite length_app. cbn [length].
      apply andb_true_iff in Hall' as [_ Hall']. split; [lia|exact Hall'].
    + exists old, (new ++ [x]). rewrite <- app_assoc. split; [reflexivity|].
      rewrite length_app. cbn [length]. split; [lia|exact Hall'].
  - exists old, (new ++ [x]). rewrite <- app_assoc. split; [reflexivity|].
    rewrite length_app. cbn [length]. split; [lia|exact Hall'].
Qed.

Lemma ends_with_run_zero {A : Type} (P : A -> bool) (d : list A) :
  ends_with_run P 0 d.
Proof. exists d, []. now rewrite app_nil_r. Qed.

Section SpeechRuns.

Variable vad_is_speech : frame -> Z -> option bool.

Lemma record_loop_feed (fs : list frame) (c : capture) :
  is_recording c = true ->
  record_loop vad_is_speech (map ReadOk fs) c
  = (feed_frames vad_is_speech fs c, false).
Proof.
  revert c. induction fs as [|f fs IH]; intros c Hrec; simpl; rewrite Hrec.
  - reflexivity.
  - apply IH. now rewrite process_frame_is_recording.
Qed.

Lemma pushed_frame_is_counted (f : frame) (speech : bool)
    (rb : list (frame * bool)) :
  length rb <= ring_buffer_size ->
  let rb' := deque_append ring_buffer_size (f, speech) rb in
  (speech = false -> num_voiced rb' <= 9)
  /\ (speech = true -> num_unvoiced rb' <= 9).
Proof.
  intros Hok rb'.
  assert (Hlen : length rb' <= ring_buffer_size).
  { apply deque_append_length; [rewrite ring_buffer_size_eq; lia | exact Hok]. }
  destruct (deque_append_last ring_buffer_size (f, speech) rb) as (pre & Hpre).
  { rewrite ring_buffer_size_eq. lia. }
  fold rb' in Hpre. rewrite ring_buffer_size_eq in Hlen.
  rewrite Hpre, length_app in Hlen. simpl in Hlen.
  pose proof (num_voiced_le pre) as Hv.
  pose proof (num_unvoiced_le pre) as Hu.
  split; intros ->; rewrite Hpre; unfold num_voiced, num_unvoiced in *;
    rewrite List.filter_app, length_app; simpl; lia.
Qed.

(** A non-speech frame leaves an idle segmenter idle. *)
Lemma idle_silent_step (f : frame) (c : capture) :
  ring_ok c -> triggered c = false ->
  let c' := segment_step f false c in
  ring_ok c' /\ triggered c' = false
  /\ voiced_frames c' = voiced_frames c /\ audio_queue c' = audio_queue c.
Proof.
  intros Hok Ht c'. split; [now apply segment_step_ring_ok|].
  subst c'. unfold segment_step. rewrite Ht. simpl.
  destruct (pushed_frame_is_counted f false (ring_buffer c) Hok) as [Hv _].
  specialize (Hv eq_refl).
  rewrite exceeds_threshold_small by lia.
  destruct (Nat.ltb_spec 9 (num_voiced
              (deque_append ring_buffer_size (f, false) (ring_buffer c))));
    [lia|]. simpl. auto.
Qed.

Lemma idle_silent_loop (reads : list read_outcome) (c : capture) :
  ring_ok c -> triggered c = false ->
  Forall (fun f => is_speech vad_is_speech f = false) (delivered reads) ->
  let c' := fst (record_loop vad_is_speech reads c) in
  ring_ok c' /\ triggered c' = false
  /\ voiced_frames c' = voiced_frames c /\ audio_queue c' = audio_queue c.
Proof.
  revert c. induction reads as [|r reads IH]; intros c Hok Ht Hall; simpl.
  - destruct (is_recording c); simpl; auto.
  - destruct (is_recording c); simpl; auto.
    destruct r as [f|]; simpl in *; auto.
    inversion Hall as [|? ? Hf Hrest]; subst.
    unfold process_frame. rewrite Hf.
    destruct (idle_silent_step f c Hok Ht) as (H1 & H2 & H3 & H4).
    destruct (IH (segment_step f false c) H1 H2 Hrest) as (K1 & K2 & K3 & K4).
    repeat split; auto; congruence.
Qed.

Lemma silent_stream_queues_nothing (reads : list read_outcome) (c : capture) :
  ring_ok c -> triggered c = false -> voiced_frames c = [] ->
  Forall (fun f => is_speech vad_is_speech f = false) (delivered reads) ->
  let c' := record_audio_vad vad_is_speech reads c in
  triggered c' = false
  /\ voiced_frames c' = []
  /\ audio_queue c' = audio_queue c
  /\ audio_queue (stop_flush c') = audio_queue c.
Proof.
  intros Hok Ht Hvf Hall c'.
  assert (H : triggered c' = false /\ voiced_frames c' = []
              /\ audio_queue c' = audio_queue c).
  { subst c'. unfold record_audio_vad.
    destruct (recording_thread c); auto.
    destruct (idle_silent_loop reads c Hok Ht Hall) as (_ & K2 & K3 & K4).
    destruct (record_loop vad_is_speech reads c) as [c1 exited]. simpl in *.
    rewrite Hvf in K3.
    destruct exited; auto.
    unfold record_finally. rewrite K3. simpl. auto. }
  destruct H as (H1 & H2 & H3). repeat split; auto.
  unfold stop_flush. simpl. rewrite H2. simpl. exact H3.
Qed.

(** A stream on which the classifier never reports speech (or fails) never
    triggers an idle segmenter: nothing is queued by the recording thread,
    nor by the flush of a [stop] after it. *)
Theorem silence_never_triggers (reads : list read_outcome) (c : capture) :
  ring_ok c -> triggered c = false -> voiced_frames c = [] ->
  Forall (fun f => is_speech vad_is_speech f = false) (delivered reads) ->
  let c' := record_audio_vad vad_is_speech reads c in
  triggered c' = false
  /\ voiced_frames c' = []
  /\ audio_queue c' = audio_queue c
  /\ audio_queue (stop_flush c') = audio_queue c.
Proof. apply silent_stream_queues_nothing. Qed.

End SpeechRuns.

(** Thirty silent frames and a malformed one: nothing is queued. *)
Lemma silence_never_triggers_witness :
  let c' := record_audio_vad Demo.vad
              (map ReadOk (repeat Demo.silence 30 ++ [Demo.malformed]))
              Demo.started in
  triggered c' = false
  /\ voiced_frames c' = []
  /\ audio_queue c' = []
  /\ audio_queue (stop_flush c') = [].
Proof.
  apply (silence_never_triggers Demo.vad
           (map ReadOk (repeat Demo.silence 30 ++ [Demo.malformed]))
           Demo.started).
  - vm_compute. lia.
  - reflexivity.
  - reflexivity.
  - vm_compute. repeat constructor.
Defined.

Section OnsetOffsetLatency.

Variable vad_is_speech : frame -> Z -> option bool.

(** A speech frame never ends an utterance, and it lengthens the run of
    speech at the end of the ring buffer of an idle segmenter, which is
    triggered at the latest when the run reaches ten. *)
Lemma speech_step (f : frame) (c : capture) :
  ring_ok c ->
  let c' := segment_step f true c in
  (triggered c = true -> triggered c' = true)
  /\ (triggered c = false ->
      forall j, ends_with_run is_voiced j (ring_buffer c) ->
        triggered c' = true
        \/ (triggered c' = false
            /\ ends_with_run is_voiced (S j) (ring_buffer c') /\ S j <= 9)).
Proof.
  intros Hok c'. subst c'. unfold segment_step.
  destruct (pushed_frame_is_counted f true (ring_buffer c) Hok) as [_ Hu].
  specialize (Hu eq_refl).
  set (rb := deque_append ring_buffer_size (f, true) (ring_buffer c)) in *.
  split; intros Ht; rewrite Ht; simpl.
  - rewrite exceeds_threshold_small by lia.
    destruct (Nat.ltb_spec 9 (num_unvoiced rb)); [lia|]. reflexivity.
  - intros j Hrun.
    assert (Hlen : length rb <= ring_buffer_size).
    { apply deque_append_length; [rewrite ring_buffer_size_eq; lia | exact Hok]. }
    pose proof (num_voiced_le rb) as Hv.
    rewrite exceeds_threshold_small by (rewrite ring_buffer_size_eq in Hlen; lia).
    destruct (Nat.ltb_spec 9 (num_voiced rb)) as [Hfire|Hno]; simpl;
      [now left|right].
    assert (Hrun' : ends_with_run is_voiced (Nat.min (S j) ring_buffer_size) rb).
    { apply deque_append_run; auto. rewrite ring_buffer_size_eq. lia. }
    pose proof (ends_with_run_count _ _ _ Hrun') as Hc.
    change (length (List.filter is_voiced rb)) with (num_voiced rb) in Hc.
    rewrite ring_buffer_size_eq in *.
    assert (S j <= 9) by lia.
    split; [reflexivity|]. split; [|assumption].
    replace (S j) with (Nat.min (S j) 10) by lia. exact Hrun'.
Qed.

Lemma feed_frames_cons (f : frame) (fs : list frame) (c : capture) :
  feed_frames vad_is_speech (f :: fs) c
  = feed_frames vad_is_speech fs (process_frame vad_is_speech f c).
Proof. reflexivity. Qed.

Lemma speech_run (fs : list frame) (c : capture) (j : nat) :
  ring_ok c ->
  Forall (fun f => is_speech vad_is_speech f = true) fs ->
  (triggered c = true -> triggered (feed_frames vad_is_speech fs c) = true)
  /\ (triggered c = false ->
      ends_with_run is_voiced j (ring_buffer c) -> j <= 9 ->
      triggered (feed_frames vad_is_speech fs c) = true
      \/ j + length fs <= 9).
Proof.
  revert c j. induction fs as [|f fs IH]; intros c j Hok Hall.
  - simpl. split; [auto|]. intros Ht _ Hj. right. lia.
  - inversion Hall as [|? ? Hf Hrest]; subst.
    rewrite feed_frames_cons. unfold process_frame. rewrite Hf.
    destruct (speech_step f c Hok) as [Hkeep Hgrow].
    assert (Hok' : ring_ok (segment_step f true c))
      by now apply segment_step_ring_ok.
    destruct (IH (segment_step f true c) (S j) Hok' Hrest) as [IHt IHi].
    split.
    + intros Ht. apply IHt, Hkeep, Ht.
    + intros Ht Hrun _.
      destruct (Hgrow Ht j Hrun) as [Hfired|(Hidle & Hrun' & Hj)].
      * left. apply IHt, Hfired.
      * destruct (IHi Hidle Hrun' Hj) as [H|H]; [now left|right; simpl; lia].
Qed.

(** Ten speech frames in a row leave the segmenter triggered, whatever its
    state before: an idle segmenter is triggered by the tenth at the latest,
    and no speech frame ends an utterance. *)
Theorem ten_speech_frames_trigger (fs : list frame) (c : capture) :
  ring_ok c ->
  is_recording c = true ->
  10 <= length fs ->
  Forall (fun f => is_speech vad_is_speech f = true) fs ->
  triggered (fst (record_loop vad_is_speech (map ReadOk fs) c)) = true.
Proof.
  intros Hok Hrec Hlen Hall. rewrite record_loop_feed by exact Hrec. simpl.
  destruct (speech_run fs c 0 Hok Hall) as [Ht Hi].
  destruct (triggered c) eqn:E; [now apply Ht|].
  destruct (Hi eq_refl (ends_with_run_zero _ _)) as [H|H]; [lia|exact H|lia].
Qed.

Lemma idle_silent_feed (fs : list frame) (c : capture) :
  ring_ok c -> triggered c = false ->
  Forall (fun f => is_speech vad_is_speech f = false) fs ->
  let c' := feed_frames vad_is_speech fs c in
  triggered c' = false
  /\ voiced_frames c' = voiced_frames c /\ audio_queue c' = audio_queue c.
Proof.
  revert c. induction fs as [|f fs IH]; intros c Hok Ht Hall; [now simpl|].
  inversion Hall as [|? ? Hf Hrest]; subst.
  rewrite feed_frames_cons. unfold process_frame. rewrite Hf.
  destruct (idle_silent_step f c Hok Ht) as (H1 & H2 & H3 & H4).
  destruct (IH (segment_step f false c) H1 H2 Hrest) as (K2 & K3 & K4).
  repeat split; congruence.
Qed.

(** A non-speech frame in an utterance either ends it, queueing the
    utterance if it has more than ten frames, or lengthens the run of
    non-speech at the end of the ring buffer, which stays below ten. *)
Lemma unvoiced_step (f : frame) (c : capture) (j : nat) :
  ring_ok c -> triggered c = true ->
  ends_with_run is_unvoiced j (ring_buffer c) ->
  let c' := segment_step f false c in
  (triggered c' = false /\ voiced_frames c' = [] /\ ring_buffer c' = []
   /\ audio_queue c'
      = if 10 <? length (voiced_frames c ++ [f])
        then audio_queue c ++ [save_audio_segment (voiced_frames c ++ [f])]
        else audio_queue c)
  \/ (triggered c' = true /\ voiced_frames c' = voiced_frames c ++ [f]
      /\ audio_queue c' = audio_queue c
      /\ ends_with_run is_unvoiced (S j) (ring_buffer c') /\ S j <= 9).
Proof.
  intros Hok Ht Hrun c'. subst c'. unfold segment_step. rewrite Ht. simpl.
  set (rb := deque_append ring_buffer_size (f, false) (ring_buffer c)) in *.
  assert (Hlen : length rb <= ring_buffer_size).
  { apply deque_append_length; [rewrite ring_buffer_size_eq; lia | exact Hok]. }
  pose proof (num_unvoiced_le rb) as Hu.
  rewrite exceeds_threshold_small by (rewrite ring_buffer_size_eq in Hlen; lia).
  destruct (Nat.ltb_spec 9 (num_unvoiced rb)) as [Hfire|Hno]; simpl.
  - left. auto.
  - right.
    assert (Hrun' : ends_with_run is_unvoiced (Nat.min (S j) ring_buffer_size) rb).
    { apply deque_append_run; auto. rewrite ring_buffer_size_eq. lia. }
    pose proof (ends_with_run_count _ _ _ Hrun') as Hc.
    change (length (List.filter is_unvoiced rb)) with (num_unvoiced rb) in Hc.
    rewrite ring_buffer_size_eq in *.
    assert (S j <= 9) by lia.
    repeat split; auto.
    replace (S j) with (Nat.min (S j) 10) by lia. exact Hrun'.
Qed.

Lemma unvoiced_run (fs : list frame) (c : capture) (j : nat) :
  ring_ok c -> triggered c = true ->
  ends_with_run is_unvoiced j (ring_buffer c) ->
  j <= 9 ->
  10 <= j + length fs ->
  Forall (fun f => is_speech vad_is_speech f = false) fs ->
  exists k,
    1 <= k /\ k <= length fs /\ k + j <= 10
    /\ let c' := feed_frames vad_is_speech fs c in
       triggered c' = false /\ voiced_frames c' = []
       /\ audio_queue c'
          = if 10 <? length (voiced_frames c ++ take k fs)
            then audio_queue c
                 ++ [save_audio_segment (voiced_frames c ++ take k fs)]
            else audio_queue c.
Proof.
  revert c j. induction fs as [|f fs IH]; intros c j Hok Ht Hrun Hj Hlen Hall.
  - simpl in Hlen. lia.
  - inversion Hall as [|? ? Hf Hrest]; subst.
    rewrite feed_frames_cons. unfold process_frame. rewrite Hf.
    assert (Hok' : ring_ok (segment_step f false c))
      by now apply segment_step_ring_ok.
    destruct (unvoiced_step f c j Hok Ht Hrun)
      as [(H1 & H2 & H3 & H4)|(H1 & H2 & H3 & H4 & H5)].
    + exists 1. simpl. split; [lia|]. split; [lia|]. split; [lia|].
      destruct (idle_silent_feed fs (segment_step f false c) Hok' H1 Hrest)
        as (K1 & K2 & K3).
      rewrite take_0. repeat split; congruence.
    + destruct (IH (segment_step f false c) (S j) Hok' H1 H4 H5) as
        (k & Hk1 & Hk2 & Hk3 & K1 & K2 & K3); [simpl in Hlen; lia|exact Hrest|].
      exists (S k). simpl. split; [lia|]. split; [lia|]. split; [lia|].
      rewrite H2, H3, <- app_assoc in K3. simpl in K3.
      repeat split; assumption.
Qed.

(** Ten non-speech frames in a row end an utterance: the segmenter is idle
    with nothing buffered, and one segment was queued, made of the frames
    buffered before and of the first [k] of these frames, [k] at most ten. *)
Theorem ten_silent_frames_end_utterance (fs : list frame) (c : capture) :
  settled c ->
  triggered c = true ->
  is_recording c = true ->
  10 <= length fs ->
  Forall (fun f => is_speech vad_is_speech f = false) fs ->
  exists k,
    1 <= k /\ k <= 10
    /\ let c' := fst (record_loop vad_is_speech (map ReadOk fs) c) in
       triggered c' = false /\ voiced_frames c' = []
       /\ audio_queue c'
          = audio_queue c ++ [save_audio_segment (voiced_frames c ++ take k fs)].
Proof.
  intros (Hok & _ & Hvf) Ht Hrec Hlen Hall. specialize (Hvf Ht).
  destruct (unvoiced_run fs c 0 Hok Ht (ends_with_run_zero _ _))
    as (k & Hk1 & Hk2 & Hk3 & K1 & K2 & K3); [lia|lia|exact Hall|].
  exists k. split; [lia|]. split; [lia|].
  rewrite record_loop_feed by exact Hrec. simpl.
  split; [exact K1|]. split; [exact K2|]. rewrite K3.
  destruct (Nat.ltb_spec 10 (length (voiced_frames c ++ take k fs)))
    as [_|Hshort]; [reflexivity|].
  rewrite length_app, length_take in Hshort. lia.
Qed.

End OnsetOffsetLatency.

(** A malformed frame, then ten voiced ones: triggered. *)
Lemma ten_speech_frames_trigger_witness :
  triggered
    (fst (record_loop Demo.vad (map ReadOk (repeat Demo.voice 10))
            (segment_step Demo.malformed false Demo.started))) = true.
Proof.
  apply (ten_speech_frames_trigger Demo.vad (repeat Demo.voice 10)
           (segment_step Demo.malformed false Demo.started)).
  - vm_compute. lia.
  - reflexivity.
  - simpl. lia.
  - vm_compute. repeat constructor.
Defined.

(** The triggered session, then twelve silent frames: the utterance is
    queued with its ten voiced frames and the ten silent ones up to the
    offset. *)
Lemma ten_silent_frames_end_utterance_witness :
  exists k,
    1 <= k /\ k <= 10
    /\ let c' := fst (record_loop Demo.vad
                        (map ReadOk (repeat Demo.silence 12))
                        (F.cap Demo.faster_triggered)) in
       triggered c' = false /\ voiced_frames c' = []
       /\ audio_queue c'
          = audio_queue (F.cap Demo.faster_triggered)
            ++ [save_audio_segment
                  (voiced_frames (F.cap Demo.faster_triggered)
                   ++ take k (repeat Demo.silence 12))].
Proof.
  apply (ten_silent_frames_end_utterance Demo.vad (repeat Demo.silence 12)
           (F.cap Demo.faster_triggered)).
  - unfold settled, ring_ok. vm_compute. repeat split; try lia; congruence.
  - vm_compute. reflexivity.
  - vm_compute. reflexivity.
  - simpl. lia.
  - vm_compute. repeat constructor.
Defined.

(** ** The worker of the faster-whisper transcriber *)

Section WorkerOrder.

Variable transcribe : model_handle -> segment -> option transcription.




End WorkerOrder.


(** ** What [stop] leaves behind *)

Section StopState.

Variable vad_is_speech : frame -> Z -> option bool.
Variable transcribe : model_handle -> segment -> option transcription.
Variable py_str : value -> string.
Variable py_format_2f : value -> option string.
Variable py_mean : list float -> float.

#[local] Abbreviation fstop := (F.stop vad_is_speech transcribe py_str py_format_2f py_mean).








Lemma start_fields
    (WhisperModel : string -> string -> string -> option model_handle)
    (now : datetime) (w w' : F.t) :
  F.start WhisperModel now w = Returned w' ->
  is_recording (F.cap w') = true
  /\ recording_thread (F.cap w') = Running
  /\ transcription_thread (F.cap w') = Running
  /\ audio_queue (F.cap w') = audio_queue (F.cap w)
  /\ same_segmenter (F.cap w) (F.cap w')
  /\ TranscriptLogger.transcript_entries (F.transcript_logger w') = [].
Proof.
  unfold F.start, F.load_model, same_segmenter.
  destruct (F.model w) as [m|].
  - intros H. inversion H; subst. simpl. auto 10.
  - destruct (WhisperModel _ _ _) as [m|].
    + intros H. inversion H; subst. simpl. auto 10.
    + destruct (WhisperModel _ _ _) as [m|]; intros H; inversion H; subst.
      simpl. auto 10.
Qed.


Lemma save_nothing_to_save (py_str' : value -> string)
    (py_format_2f' : value -> option string) (py_mean' : list float -> float)
    (output_dir : string) (now : datetime) (lg : TranscriptLogger.t)
    (fs : filesystem) :
  TranscriptLogger.transcript_entries lg = [] ->
  TranscriptLogger.save_transcript py_str' py_format_2f' py_mean' output_dir
    now lg fs = (Returned None, fs).
Proof. intros H. unfold TranscriptLogger.save_transcript. now rewrite H. Qed.

Lemma join_transcription_empty_queue (clock : nat -> tick) (w : F.t) :
  audio_queue (F.cap w) = [] ->
  F.transcript_logger (F.join_transcription transcribe clock w)
  = F.transcript_logger w
  /\ F.transcription_times (F.join_transcription transcribe clock w)
     = F.transcription_times w.
Proof.
  intros Hq. unfold F.join_transcription, F.transcribe_worker. rewrite Hq.
  simpl. destruct (transcription_thread (F.cap w)); auto.
  destruct (worker_guard (F.cap w)); auto.
Qed.

(** A session in which the classifier never reports speech leaves the file
    system as it was: started on an idle segmenter with an empty queue, run
    over any such stream and stopped, it queues nothing, transcribes
    nothing, and [stop] returns without writing a transcript. *)
Theorem silent_session_writes_nothing
    (WhisperModel : string -> string -> string -> option model_handle)
    (clock : nat -> tick) (now later : datetime)
    (reads : list read_outcome) (w w1 : F.t) (fs : filesystem) :
  F.start WhisperModel now w = Returned w1 ->
  segmenter_idle (F.cap w) ->
  audio_queue (F.cap w) = [] ->
  Forall (fun f => is_speech vad_is_speech f = false) (delivered reads) ->
  exists w',
    fstop clock later (F.record vad_is_speech reads w1) fs = (Returned w', fs)
    /\ TranscriptLogger.transcript_entries (F.transcript_logger w') = []
    /\ F.total_segments w' = F.total_segments w.
Proof.
  intros Hstart (Ht & Hrb & Hvf) Hq Hall.
  destruct (start_fields _ _ _ _ Hstart) as (_ & _ & _ & Q & (T1 & T2 & T3) & E).
  assert (Htot : F.total_segments w1 = F.total_segments w).
  { revert Hstart. unfold F.start, F.load_model.
    destruct (F.model w); [intros H; inversion H; reflexivity|].
    destruct (WhisperModel _ _ _); [intros H; inversion H; reflexivity|].
    destruct (WhisperModel _ _ _); intros H; inversion H; reflexivity. }
  destruct (silent_stream_queues_nothing vad_is_speech reads (F.cap w1))
    as (R1 & R2 & R3 & R4); auto.
  { unfold ring_ok. rewrite T2, Hrb. simpl. lia. }
  { congruence. }
  { congruence. }
  set (c2 := record_audio_vad vad_is_speech reads (F.cap w1)) in *.
  assert (Hq3 : audio_queue (join_recording vad_is_speech (stop_flush c2)) = []).
  { unfold join_recording, record_audio_vad, stop_flush. simpl.
    rewrite R2. simpl.
    destruct (recording_thread c2); simpl; try congruence.
    unfold record_finally. simpl. rewrite R2. simpl. congruence. }
  unfold F.stop, F.record. simpl. fold c2.
  match goal with
  | |- context [F.join_transcription transcribe clock ?x] =>
      set (wx := x); set (w3 := F.join_transcription transcribe clock wx)
  end.
  destruct (join_transcription_empty_queue clock wx Hq3) as (L1 & L2).
  fold w3 in L1, L2. simpl in L1, L2.
  assert (Hent : TranscriptLogger.transcript_entries
                   (TranscriptLogger.set_metadata "transcription_times"
                      (VFloats (F.transcription_times w3))
                      (F.transcript_logger w3)) = []).
  { simpl. rewrite L1. exact E. }
  rewrite (save_nothing_to_save py_str py_format_2f py_mean "transcripts"
             later _ fs Hent).
  eexists. split; [reflexivity|]. split; [exact Hent|].
  simpl. rewrite <- Htot.
  unfold w3, F.join_transcription, F.transcribe_worker.
  replace (audio_queue (F.cap wx)) with (@nil segment) by (symmetry; exact Hq3).
  simpl. destruct (transcription_thread _); simpl; auto.
  destruct (worker_guard _); simpl; auto.
Qed.

End StopState.



(** Thirty silent frames between [start] and [stop]: no file. *)
Lemma silent_session_writes_nothing_witness :
  exists w',
    Demo.faster_stop
      (F.record Demo.vad (map ReadOk (repeat Demo.silence 30))
                Demo.faster_started)
      Demo.empty_fs
    = (Returned w', Demo.empty_fs)
    /\ TranscriptLogger.transcript_entries (F.transcript_logger w') = []
    /\ F.total_segments w' = F.total_segments Demo.faster_new.
Proof.
  apply (silent_session_writes_nothing Demo.vad Demo.transcribe_ok
           Demo.py_str Demo.py_format_2f Demo.py_mean Demo.cpu_only
           Demo.clock Demo.noon Demo.later
           (map ReadOk (repeat Demo.silence 30))
           Demo.faster_new Demo.faster_started Demo.empty_fs).
  - vm_compute. reflexivity.
  - repeat split.
  - reflexivity.
  - vm_compute. repeat constructor.
Defined.

(** ** The transcript logger *)

Lemma dict_get_set_eq (k : string) (v : value) (d : dict) :
  dict_get k (dict_set k v d) = Some v.
Proof.
  induction d as [|[k' v'] d IH]; simpl.
  - now rewrite String.eqb_refl.
  - destruct (String.eqb k k') eqn:E; simpl.
    + now rewrite String.eqb_refl.
    + now rewrite E.
Qed.

Lemma dict_get_set_ne (k k' : string) (v : value) (d : dict) :
  k <> k' -> dict_get k (dict_set k' v d) = dict_get k d.
Proof.
  intros Hne. induction d as [|[k2 v2] d IH]; simpl.
  - destruct (String.eqb_spec k k'); congruence.
  - destruct (String.eqb_spec k' k2); simpl.
    + subst. destruct (String.eqb_spec k k2); congruence.
    + destruct (String.eqb_spec k k2); congruence.
Qed.

Lemma dict_get_update_other (k : string) (d extra : dict) :
  dict_get k extra = None ->
  dict_get k (dict_update d extra) = dict_get k d.
Proof.
  unfold dict_update. revert d.
  induction extra as [|[k' v'] extra IH]; intros d Hk; simpl in *; [reflexivity|].
  destruct (String.eqb_spec k k'); [discriminate|].
  rewrite IH by exact Hk. now apply dict_get_set_ne.
Qed.

Section LoggerEntries.

Import TranscriptLogger.

(** [add_transcript] appends one entry and touches nothing else: the
    earlier entries stay in their order, the count grows by one, and, the
    keywords not being [text] or [timestamp], the new entry gives back the
    text, and as timestamp the one passed, or the current time when none
    or an empty one is passed. *)
Theorem add_transcript_appends (text : string) (timestamp : option string)
    (extra_data : dict) (now : datetime) (lg : t) :
  dict_get "text" extra_data = None ->
  dict_get "timestamp" extra_data = None ->
  let lg' := add_transcript text timestamp extra_data now lg in
  exists entry,
    transcript_entries lg' = transcript_entries lg ++ [entry]
    /\ get_transcript_count lg' = S (get_transcript_count lg)
    /\ entry_text entry = Some text
    /\ dict_get "timestamp" entry
       = Some (VStr (match timestamp with
                     | Some ts => if String.eqb ts "" then strftime_hms now else ts
                     | None => strftime_hms now
                     end))
    /\ session_metadata lg' = session_metadata lg
    /\ session_start_time lg' = session_start_time lg.
Proof.
  intros Htext Hts lg'.
  exists (make_entry text timestamp extra_data now).
  unfold lg', add_transcript, get_transcript_count. simpl.
  rewrite length_app. simpl.
  repeat split; try reflexivity; try lia.
  - unfold entry_text, make_entry.
    rewrite dict_get_update_other by exact Htext. reflexivity.
  - unfold make_entry.
    rewrite dict_get_update_other by exact Hts. reflexivity.
Qed.

End LoggerEntries.

Lemma add_transcript_appends_witness :
  exists entry,
    TranscriptLogger.transcript_entries
      (TranscriptLogger.add_transcript "more" (Some "")
         [("language", VStr "en")] Demo.later Demo.logger_one)
    = TranscriptLogger.transcript_entries Demo.logger_one ++ [entry]
    /\ TranscriptLogger.entry_text entry = Some "more"
    /\ dict_get "timestamp" entry = Some (VStr "12:30:05").
Proof.
  destruct (add_transcript_appends "more" (Some "") [("language", VStr "en")]
              Demo.later Demo.logger_one)
    as (entry & H1 & _ & H3 & H4 & _).
  - reflexivity.
  - reflexivity.
  - exists entry. split; [exact H1|]. split; [exact H3|]. exact H4.
Defined.

Section SaveFrame.

Import TranscriptLogger.

Variable py_str : value -> string.
Variable py_format_2f : value -> option string.
Variable py_mean : list float -> float.

#[local] Abbreviation save := (save_transcript py_str py_format_2f py_mean).


End SaveFrame.


(** ** What is written to the transcript file *)

Section WriterLaws.

Import TranscriptLogger.

Lemma bind_tail {A B : Type} (m : writer A) (k : A -> writer B)
    (buf out : list string) (b : B) :
  (m ≫= k) buf = (Some b, out) ->
  exists a mid, m buf = (Some a, mid) /\ k a mid = (Some b, out).
Proof.
  unfold mbind, writer_bind, wbind.
  destruct (m buf) as [[a|] mid]; [eauto|discriminate].
Qed.

Lemma succeeds_write (s : string) : succeeds (write s).
Proof. intros buf. unfold write. eauto. Qed.

Lemma succeeds_wret {A : Type} (a : A) : succeeds (wret a).
Proof. intros buf. unfold wret. eauto. Qed.

Lemma succeeds_bind {A B : Type} (m : writer A) (k : A -> writer B) :
  succeeds m -> (forall a, succeeds (k a)) -> succeeds (m ≫= k).
Proof.
  intros Hm Hk buf. unfold mbind, writer_bind, wbind.
  destruct (Hm buf) as (a & mid & ->). apply Hk.
Qed.

Lemma succeeds_lift {A B : Type} (o : option A) (k : A -> writer B) :
  (exists a, o = Some a /\ succeeds (k a)) -> succeeds (wlift o ≫= k).
Proof.
  intros (a & -> & Hk) buf. unfold mbind, writer_bind, wbind, wlift, wret.
  apply Hk.
Qed.

Lemma succeeds_for_each {A : Type} (l : list A) (body : A -> writer unit) :
  Forall (fun x => succeeds (body x)) l -> succeeds (for_each l body).
Proof.
  induction 1 as [|x l Hx Hl IH]; simpl.
  - apply succeeds_wret.
  - apply succeeds_bind; [exact Hx|]. intros _. exact IH.
Qed.

Lemma string_app_nil_r (s : string) : (s ++ "")%string = s.
Proof.
  induction s as [|c s IH]; [reflexivity|].
  change (String c (s ++ "")%string = String c s). now rewrite IH.
Qed.

Lemma string_app_assoc (a b c : string) :
  ((a ++ b) ++ c)%string = (a ++ (b ++ c))%string.
Proof.
  induction a as [|x a IH]; [reflexivity|].
  change (String x ((a ++ b) ++ c)%string = String x (a ++ (b ++ c))%string).
  now rewrite IH.
Qed.

Lemma concat_empty_app (a b : list string) :
  String.concat "" (a ++ b) = (String.concat "" a ++ String.concat "" b)%string.
Proof.
  induction a as [|x a IH]; [reflexivity|].
  change ((x :: a) ++ b) with (x :: (a ++ b)).
  assert (Hc : forall l, String.concat "" (x :: l)
                         = (x ++ String.concat "" l)%string).
  { intros [|y l]; simpl; [now rewrite string_app_nil_r|reflexivity]. }
  rewrite !Hc, IH. now rewrite string_app_assoc.
Qed.

End WriterLaws.

Section TranscriptContent.

Import TranscriptLogger.

Variable py_str : value -> string.
Variable py_format_2f : value -> option string.
Variable py_mean : list float -> float.

#[local] Abbreviation save := (save_transcript py_str py_format_2f py_mean).
#[local] Abbreviation content :=
  (write_transcript_content py_str py_format_2f py_mean).

(** What a complete writing ends with. *)
Lemma content_ends_with_texts (now : datetime) (lg : t)
    (buf chunks : list string) :
  content now lg buf = (Some tt, chunks) ->
  exists before text,
    get_continuous_transcript lg = Some text
    /\ chunks = before ++ [text; nl].
Proof.
  unfold write_transcript_content. intros H.
  do 18 (apply bind_tail in H; destruct H as (? & ? & _ & H)).
  apply bind_tail in H. destruct H as (texts & mid & Hlift & H).
  unfold get_continuous_transcript.
  destruct (all_some (map entry_text (transcript_entries lg))) as [ts|];
    [|discriminate].
  inversion Hlift; subst.
  unfold mbind, writer_bind, wbind, write in H. inversion H; subst.
  exists mid, (str_join " " texts). split; [reflexivity|].
  now rewrite <- app_assoc.
Qed.

(** A transcript file that [save_transcript] reports as saved ends with
    the continuous transcript, the text [get_continuous_transcript] returns
    (the texts of the entries joined by single spaces), and a newline. *)
Theorem saved_file_ends_with_continuous_transcript (output_dir : string)
    (now : datetime) (lg : t) (fs : filesystem) (path : string) :
  fst (save output_dir now lg fs) = Returned (Some path) ->
  exists before text,
    get_continuous_transcript lg = Some text
    /\ fs_files (snd (save output_dir now lg fs)) !! path
       = Some (before ++ text ++ nl)%string.
Proof.
  unfold save_transcript.
  destruct (transcript_entries lg) as [|e es] eqn:E; [discriminate|].
  destruct (session_start_time lg) as [start|]; [|discriminate].
  destruct (ensure_output_dir output_dir fs) as [fs1|err]; [|discriminate].
  destruct (can_open_for_write _ _ _); [|discriminate].
  destruct (content now lg []) as [[[]|] chunks] eqn:W; [|discriminate].
  simpl. intros H. inversion H; subst.
  destruct (content_ends_with_texts now lg [] chunks W)
    as (before & text & Htext & ->).
  exists (str_join "" before), text. split; [exact Htext|].
  rewrite lookup_insert_eq. f_equal. unfold str_join.
  rewrite concat_empty_app. reflexivity.
Qed.

Lemma write_entry_item_succeeds (kv : string * value) :
  (fst kv = "confidence" \/ fst kv = "duration" ->
   is_Some (py_format_2f (snd kv))) ->
  succeeds (write_entry_item py_str py_format_2f kv).
Proof.
  destruct kv as [key v]. simpl. intros Hfmt. unfold write_entry_item.
  destruct (String.eqb key "timestamp" || String.eqb key "text");
    [apply succeeds_wret|].
  destruct (String.eqb_spec key "confidence") as [->|_].
  { destruct Hfmt as [s Hs]; [now left|].
    apply succeeds_lift. exists s. split; [exact Hs|apply succeeds_write]. }
  destruct (String.eqb_spec key "duration") as [->|_].
  { destruct Hfmt as [s Hs]; [now right|].
    apply succeeds_lift. exists s. split; [exact Hs|apply succeeds_write]. }
  apply succeeds_write.
Qed.

Lemma write_entry_succeeds (i : nat) (entry : dict) :
  entry_writable py_format_2f entry ->
  succeeds (write_entry py_str py_format_2f (i, entry)).
Proof.
  intros ([ts Hts] & [tx Htx] & Hitems). unfold write_entry.
  apply succeeds_lift. exists ts. split; [exact Hts|].
  apply succeeds_bind; [apply succeeds_write|]. intros _.
  unfold entry_text in Htx.
  destruct (dict_get "text" entry) as [v|] eqn:E; [|discriminate].
  apply succeeds_lift. exists v. split; [reflexivity|].
  apply succeeds_bind; [apply succeeds_write|]. intros _.
  apply succeeds_bind; [|intros _; apply succeeds_write].
  apply succeeds_for_each.
  eapply Forall_impl; [exact Hitems|].
  intros kv Hkv. now apply write_entry_item_succeeds.
Qed.

Lemma write_performance_succeeds (metadata : dict) :
  metadata_writable py_format_2f py_mean metadata ->
  succeeds (write_performance py_format_2f py_mean metadata).
Proof.
  unfold metadata_writable, write_performance.
  destruct (dict_get "transcription_times" metadata) as [times|];
    [|intros _; apply succeeds_wret].
  intros [Hfalse|(l & -> & [s Hs])].
  - rewrite Hfalse. apply succeeds_wret.
  - destruct (truthy (VFloats l)); [|apply succeeds_wret].
    apply succeeds_lift. exists s. split; [exact Hs|apply succeeds_write].
Qed.

Lemma all_some_entry_texts (entries : list dict) :
  Forall (entry_writable py_format_2f) entries ->
  exists texts, all_some (map entry_text entries) = Some texts.
Proof.
  induction 1 as [|e es (_ & [tx Htx] & _) _ (texts & IH)]; simpl.
  - eauto.
  - rewrite Htx, IH. eauto.
Qed.

Lemma writable_save (output_dir : string) (now : datetime)
    (lg : t) (fs fs1 : filesystem) (start : datetime) :
  transcript_entries lg <> [] ->
  session_start_time lg = Some start ->
  Forall (entry_writable py_format_2f) (transcript_entries lg) ->
  metadata_writable py_format_2f py_mean (session_metadata lg) ->
  ensure_output_dir output_dir fs = Returned fs1 ->
  can_open_for_write output_dir (transcript_filename output_dir start) fs1
    = true ->
  succeeds (content now lg)
  /\ fst (save output_dir now lg fs)
     = Returned (Some (transcript_filename output_dir start)).
Proof.
  intros Hne Hs Hentries Hmeta Hdir Hopen.
  assert (Hok : succeeds (content now lg)).
  { unfold write_transcript_content.
    do 3 (apply succeeds_bind; [apply succeeds_write|intros _]).
    apply succeeds_lift. exists start. split; [exact Hs|].
    do 4 (apply succeeds_bind; [apply succeeds_write|intros _]).
    apply succeeds_bind; [|intros _].
    { apply succeeds_for_each. apply Forall_forall. intros kv _.
      apply succeeds_write. }
    apply succeeds_bind; [apply succeeds_write|intros _].
    apply succeeds_bind; [now apply write_performance_succeeds|intros _].
    do 3 (apply succeeds_bind; [apply succeeds_write|intros _]).
    apply succeeds_bind; [|intros _].
    { apply succeeds_for_each.
      assert (Hen : forall (l : list dict) n,
                 Forall (entry_writable py_format_2f) l ->
                 Forall (fun ie => succeeds (write_entry py_str py_format_2f ie))
                        (enumerate n l)).
      { induction l as [|e l IH]; intros n Hl; simpl; [constructor|].
        inversion Hl; subst. constructor; [now apply write_entry_succeeds|].
        now apply IH. }
      now apply Hen. }
    do 3 (apply succeeds_bind; [apply succeeds_write|intros _]).
    destruct (all_some_entry_texts _ Hentries) as (texts & Htexts).
    apply succeeds_lift. exists texts. split; [exact Htexts|].
    apply succeeds_bind; [apply succeeds_write|intros _; apply succeeds_write]. }
  split; [exact Hok|].
  destruct (Hok []) as ([] & chunks & Hw).
  unfold save_transcript. rewrite Hs, Hdir, Hopen, Hw.
  destruct (transcript_entries lg); [congruence|reflexivity].
Qed.

(** Writing the transcript raises nothing when the session was started,
    every entry has a timestamp, a text that is a string and values under
    [confidence] and [duration] that accept the format [.2f], and
    [transcription_times], if set, is a list of floats: then a save that
    can open the file returns its path. *)
Theorem writable_transcript_is_saved (output_dir : string) (now : datetime)
    (lg : t) (fs fs1 : filesystem) (start : datetime) :
  transcript_entries lg <> [] ->
  session_start_time lg = Some start ->
  Forall (entry_writable py_format_2f) (transcript_entries lg) ->
  metadata_writable py_format_2f py_mean (session_metadata lg) ->
  ensure_output_dir output_dir fs = Returned fs1 ->
  can_open_for_write output_dir (transcript_filename output_dir start) fs1
    = true ->
  succeeds (content now lg)
  /\ fst (save output_dir now lg fs)
     = Returned (Some (transcript_filename output_dir start)).
Proof. apply writable_save. Qed.

End TranscriptContent.

(** The transcript of the logger with one entry ends with its text. *)
Lemma saved_file_ends_with_continuous_transcript_witness :
  exists before text,
    TranscriptLogger.get_continuous_transcript Demo.logger_one = Some text
    /\ fs_files (snd (Demo.save "transcripts" Demo.logger_one Demo.empty_fs))
         !! "transcripts/transcript_20250102_120000.txt"
       = Some (before ++ text ++ nl)%string.
Proof.
  apply (saved_file_ends_with_continuous_transcript Demo.py_str
           Demo.py_format_2f Demo.py_mean "transcripts" Demo.later
           Demo.logger_one Demo.empty_fs
           "transcripts/transcript_20250102_120000.txt").
  vm_compute. reflexivity.
Defined.

Lemma writable_transcript_is_saved_witness :
  fst (Demo.save "transcripts" Demo.logger_one Demo.empty_fs)
  = Returned (Some "transcripts/transcript_20250102_120000.txt").
Proof.
  apply (writable_transcript_is_saved Demo.py_str Demo.py_format_2f
           Demo.py_mean "transcripts" Demo.later Demo.logger_one
           Demo.empty_fs (mk_fs ({[ "transcripts" ]} ∪ ∅) ∅) Demo.noon).
  - discriminate.
  - reflexivity.
  - constructor; [|constructor].
    split; [eexists; reflexivity|]. split; [eexists; reflexivity|].
    repeat constructor; simpl; intros [H|H]; discriminate.
  - exact I.
  - reflexivity.
  - vm_compute. reflexivity.
Defined.

(** ** The convenience functions of [transcript_utils.py] *)

Section Convenience.

Import TranscriptLogger.

Variable py_str : value -> string.
Variable py_format_2f : value -> option string.
Variable py_mean : list float -> float.

(** [save_simple_transcript] never stops at "no transcript to save": for
    every text, the empty one too, where the directory [transcripts] exists
    or can be made and the file can be opened, it returns the path of the
    file, named after the time of its own [start_session]. *)
Theorem save_simple_transcript_returns_path (text tool model : string)
    (now_start now_add now_save : datetime) (fs fs1 : filesystem) :
  ensure_output_dir "transcripts" fs = Returned fs1 ->
  can_open_for_write "transcripts"
    (transcript_filename "transcripts" now_start) fs1 = true ->
  fst (save_simple_transcript py_str py_format_2f py_mean text tool model
         now_start now_add now_save fs)
  = Returned (Some (transcript_filename "transcripts" now_start)).
Proof.
  intros Hdir Hopen. unfold save_simple_transcript.
  apply (writable_save py_str py_format_2f py_mean "transcripts" now_save _
           fs fs1 now_start); auto.
  - simpl. constructor; [|constructor].
    split; [eexists; reflexivity|]. split; [eexists; reflexivity|].
    repeat constructor; simpl; intros [H|H]; discriminate.
  - exact I.
Qed.

Lemma add_segment_outcome (segment : dict) (now : datetime) (lg : t) :
  match dict_get "text" segment with
  | None => add_segment segment now lg = Raised "TypeError"
  | Some _ =>
      exists lg' entry,
        add_segment segment now lg = Returned lg'
        /\ transcript_entries lg' = transcript_entries lg ++ [entry]
        /\ session_start_time lg' = session_start_time lg
  end.
Proof.
  unfold add_segment. destruct (dict_get "text" segment); [|reflexivity].
  eexists. eexists. split; [reflexivity|]. simpl. auto.
Qed.

Lemma add_segments_outcome (segments : list dict) (clock : nat -> datetime)
    (i : nat) (lg : t) :
  (Exists (fun seg => dict_get "text" seg = None) segments ->
   add_segments segments clock i lg = Raised "TypeError")
  /\ (Forall (fun seg => dict_get "text" seg <> None) segments ->
      exists lg',
        add_segments segments clock i lg = Returned lg'
        /\ length (transcript_entries lg')
           = length (transcript_entries lg) + length segments
        /\ session_start_time lg' = session_start_time lg).
Proof.
  revert i lg. induction segments as [|seg segs IH]; intros i lg.
  - split; [intros H; inversion H|]. intros _. exists lg. simpl.
    repeat split; lia.
  - pose proof (add_segment_outcome seg (clock i) lg) as Hseg.
    simpl. destruct (dict_get "text" seg) as [tv|] eqn:E.
    + destruct Hseg as (lg1 & entry & -> & Hent & Hst).
      destruct (IH (S i) lg1) as [IHbad IHgood].
      split.
      * intros H. inversion H; subst; [congruence|]. now apply IHbad.
      * intros H. inversion H; subst.
        destruct (IHgood ltac:(assumption)) as (lg' & -> & Hlen & Hst').
        exists lg'. split; [reflexivity|]. rewrite Hlen, Hent, length_app.
        simpl. split; [lia|congruence].
    + rewrite Hseg. split; [reflexivity|].
      intros H. inversion H; subst. congruence.
Qed.

(** [save_transcript_from_segments] at its edges: with no segment it
    returns [None] and writes nothing; a segment without the key [text]
    makes it raise [TypeError] before anything is written, whatever the
    other segments; and when every segment has a text and the transcript is
    saved, the file is named after the time of its [start_session]. *)
Theorem save_from_segments_edges (segments : list dict) (tool model : string)
    (metadata : dict) (now_start : datetime) (clock : nat -> datetime)
    (now_save : datetime) (fs : filesystem) :
  let result :=
    save_transcript_from_segments py_str py_format_2f py_mean segments tool
      model metadata now_start clock now_save fs in
  (segments = [] -> result = (Returned None, fs))
  /\ (Exists (fun seg => dict_get "text" seg = None) segments ->
      result = (Raised "TypeError", fs))
  /\ (forall path, fst result = Returned (Some path) ->
      Forall (fun seg => dict_get "text" seg <> None) segments
      /\ segments <> []
      /\ path = transcript_filename "transcripts" now_start).
Proof.
  intros result. subst result. unfold save_transcript_from_segments.
  split; [|split].
  - intros ->. reflexivity.
  - intros Hbad.
    destruct (add_segments_outcome segments clock 0
                (start_session metadata now_start (init tool model)))
      as [Hraise _].
    now rewrite (Hraise Hbad).
  - intros path Hret.
    destruct (add_segments segments clock 0
                (start_session metadata now_start (init tool model)))
      as [lg'|e] eqn:E; [|discriminate].
    assert (Hall : Forall (fun seg => dict_get "text" seg <> None) segments).
    { apply Forall_forall. intros seg Hin Hnone.
      destruct (add_segments_outcome segments clock 0
                  (start_session metadata now_start (init tool model)))
        as [Hraise _].
      rewrite Hraise in E; [discriminate|].
      apply Exists_exists. exists seg. split; assumption. }
    split; [exact Hall|].
    destruct (add_segments_outcome segments clock 0
                (start_session metadata now_start (init tool model)))
      as [_ Hgood].
    destruct (Hgood Hall) as (lg2 & Hlg2 & Hlen & Hst).
    rewrite E in Hlg2. inversion Hlg2; subst lg2. simpl in Hlen, Hst.
    split.
    + intros ->. simpl in Hlen.
      unfold save_transcript in Hret.
      destruct (transcript_entries lg'); [discriminate|simpl in Hlen; lia].
    + unfold save_transcript in Hret. rewrite Hst in Hret.
      destruct (transcript_entries lg'); [discriminate|].
      destruct (ensure_output_dir _ _); [|discriminate].
      destruct (can_open_for_write _ _ _); [|discriminate].
      destruct (write_transcript_content _ _ _ _ _ _) as [[[]|] chunks];
        simpl in Hret; inversion Hret; reflexivity.
Qed.

End Convenience.

Lemma save_simple_transcript_returns_path_witness :
  fst (TranscriptLogger.save_simple_transcript Demo.py_str Demo.py_format_2f
         Demo.py_mean "" "command-line-whisper" "base"
         Demo.noon Demo.noon Demo.later Demo.empty_fs)
  = Returned (Some "transcripts/transcript_20250102_120000.txt").
Proof.
  apply (save_simple_transcript_returns_path Demo.py_str Demo.py_format_2f
           Demo.py_mean "" "command-line-whisper" "base"
           Demo.noon Demo.noon Demo.later Demo.empty_fs
           (mk_fs ({[ "transcripts" ]} ∪ ∅) ∅)).
  - reflexivity.
  - vm_compute. reflexivity.
Defined.

(** Two segments, the second without a text: [TypeError], no file. *)
Lemma save_from_segments_edges_witness :
  TranscriptLogger.save_transcript_from_segments Demo.py_str
    Demo.py_format_2f Demo.py_mean
    [[("text", VStr "one")]; [("start", VInt 3)]] "whisper" "base" []
    Demo.noon (fun _ => Demo.noon) Demo.later Demo.empty_fs
  = (Raised "TypeError", Demo.empty_fs).
Proof.
  apply (save_from_segments_edges Demo.py_str Demo.py_format_2f Demo.py_mean
           [[("text", VStr "one")]; [("start", VInt 3)]] "whisper" "base" []
           Demo.noon (fun _ => Demo.noon) Demo.later Demo.empty_fs).
  apply Exists_cons_tl. apply Exists_cons_hd. reflexivity.
Defined.

(** ** The configuration dialogue *)

Section Dialogue.

Import Main.

Variable py_strip : string -> string.
Variable py_int : string -> option Z.

Lemma choose_in_choices (raw default : string) (choices : list string) :
  str_in default choices = true ->
  str_in (choose py_strip raw default choices) choices = true.
Proof.
  intros Hd. unfold choose.
  destruct (str_in (or_default (py_strip raw) default) choices) eqn:E;
    [exact E|exact Hd].
Qed.

Lemma choose_vad_mode_range (raw : string) :
  (0 <= choose_vad_mode py_strip py_int raw <= 3)%Z.
Proof.
  unfold choose_vad_mode.
  destruct (if String.eqb (py_strip raw) "" then Some 2%Z
            else py_int (py_strip raw)) as [n|]; [|lia].
  destruct ((0 <=? n)%Z && (n <? 4)%Z) eqn:E; [|lia].
  apply andb_true_iff in E as [H1 H2]. lia.
Qed.

(** Whatever is typed, and whatever [strip] and [int] make of it, the
    dialogue of [main] ends with a valid configuration: the lookup of the
    compute types of the device never fails, the model is one of the
    available models, the device is [cpu] or [cuda], the compute type is one
    the device has, and the VAD mode is 0, 1, 2 or 3. The same holds of the
    model and the VAD mode of the plain VAD transcriber. *)
Theorem dialogue_gives_valid_configuration
    (model_in device_in compute_in vad_in : string) :
  (exists cfg types,
     faster_config py_strip py_int model_in device_in compute_in vad_in
       = Some cfg
     /\ str_in (cfg_model cfg) faster_models = true
     /\ str_in (cfg_device cfg) devices = true
     /\ compute_types (cfg_device cfg) = Some types
     /\ str_in (cfg_compute_type cfg) types = true
     /\ (0 <= cfg_vad_mode cfg <= 3)%Z)
  /\ str_in (fst (vad_config py_strip py_int model_in vad_in)) vad_models = true
  /\ (0 <= snd (vad_config py_strip py_int model_in vad_in) <= 3)%Z.
Proof.
  split; [|split].
  - unfold faster_config.
    pose proof (choose_in_choices device_in "cpu" devices eq_refl) as Hdev.
    set (dev := choose py_strip device_in "cpu" devices) in *.
    assert (Hty : exists types, compute_types dev = Some types
                                /\ str_in "int8" types = true).
    { unfold str_in, devices in Hdev. simpl in Hdev.
      unfold compute_types.
      destruct (String.eqb dev "cpu"); [eexists; split; reflexivity|].
      destruct (String.eqb dev "cuda"); [eexists; split; reflexivity|].
      discriminate. }
    destruct Hty as (types & Hty & Hint). rewrite Hty.
    eexists. exists types. split; [reflexivity|].
    cbn [cfg_model cfg_device cfg_compute_type cfg_vad_mode].
    split; [now apply choose_in_choices|].
    split; [exact Hdev|]. split; [exact Hty|].
    split; [now apply choose_in_choices|].
    apply choose_vad_mode_range.
  - unfold vad_config. cbn [fst]. now apply choose_in_choices.
  - unfold vad_config. cbn [snd]. apply choose_vad_mode_range.
Qed.

End Dialogue.

(** ** The chunks of [LiveTranscriber] *)

(** The default chunk of 3 seconds is 46 reads of 1024 samples. *)
Example reads_per_chunk_default : L.reads_per_chunk 3 = Some 46%Z.
Proof. vm_compute. reflexivity. Qed.

Lemma after_read_in_chunk (n : nat) (data : frame) (w : L.t) :
  in_chunk n w ->
  let w' := L.after_read n data w in
  in_chunk n w'
  /\ L.is_recording w' = L.is_recording w
  /\ L.recording_thread w' = L.recording_thread w
  /\ L.transcription_thread w' = L.transcription_thread w
  /\ L.chunk_duration w' = L.chunk_duration w
  /\ ((L.audio_queue w' = L.audio_queue w
       /\ L.frames w' = L.frames w ++ [data])
      \/ (L.audio_queue w'
          = L.audio_queue w ++ [save_audio_segment (L.frames w ++ [data])]
          /\ length (L.frames w ++ [data]) = n
          /\ L.frames w' = [])).
Proof.
  intros (Hsum & Hleft) w'. subst w'. unfold L.after_read, in_chunk.
  destruct (L.reads_left w) as [|[|k]] eqn:E; simpl; [lia| |].
  - repeat split; try lia. right. rewrite length_app. simpl.
    repeat split; lia.
  - rewrite length_app. simpl. repeat split; try lia. now left.
Qed.

Lemma live_record_loop_partition (n : nat) (fs : list frame) (w : L.t) :
  in_chunk n w ->
  L.is_recording w = true ->
  let w' := fst (L.record_loop n (map ReadOk fs) w) in
  exists chunks,
    L.audio_queue w' = L.audio_queue w ++ chunks
    /\ Forall (fun c => length (seg_frames c) = n) chunks
    /\ L.frames w ++ fs = concat (map seg_frames chunks) ++ L.frames w'
    /\ in_chunk n w'
    /\ L.is_recording w' = true
    /\ L.recording_thread w' = L.recording_thread w
    /\ L.transcription_thread w' = L.transcription_thread w
    /\ L.chunk_duration w' = L.chunk_duration w
    /\ snd (L.record_loop n (map ReadOk fs) w) = false.
Proof.
  revert w. induction fs as [|f fs IH]; intros w Hin Hrec; simpl.
  - rewrite Hrec. exists []. destruct n; simpl;
      rewrite !app_nil_r; repeat split; auto; apply Hin.
  - rewrite Hrec. destruct n as [|n'].
    { destruct Hin as [H1 H2]. lia. }
    destruct (after_read_in_chunk (S n') f w Hin)
      as (Hin' & Hr & Hth & Htt & Hcd & Hcase).
    destruct (IH (L.after_read (S n') f w) Hin') as
      (chunks & Hq & Hall & Hfs & Hin2 & Hrec2 & Hth2 & Htt2 & Hcd2 & Hex).
    { congruence. }
    destruct Hcase as [(Hq1 & Hf1)|(Hq1 & Hlen & Hf1)].
    + exists chunks. rewrite Hq, Hq1. rewrite Hf1, <- app_assoc in Hfs.
      repeat split; auto; first [apply Hin2 | congruence].
    + exists (save_audio_segment (L.frames w ++ [f]) :: chunks).
      rewrite Hq, Hq1, <- app_assoc. rewrite Hf1 in Hfs. simpl in Hfs.
      assert (Hcat : L.frames w ++ f :: fs
                     = concat (map seg_frames
                                 (save_audio_segment (L.frames w ++ [f]) :: chunks))
                       ++ L.frames
                            (fst (L.record_loop (S n') (map ReadOk fs)
                                    (L.after_read (S n') f w)))).
      { simpl. rewrite <- !app_assoc. simpl. now rewrite <- Hfs. }
      split; [reflexivity|]. split; [constructor; [exact Hlen|exact Hall]|].
      split; [exact Hcat|].
      repeat split; auto; try apply Hin2; congruence.
Qed.

(** A recording of [LiveTranscriber] is the stream cut into chunks of [n]
    reads, [n] being [int(sample_rate / chunk_size * chunk_duration)]: after
    the frames [fs] were read and [stop] has cleared the flag and joined the
    recording thread, the queue has gained [length fs / n] chunks of [n]
    frames each, which are the first [n * (length fs / n)] frames in their
    order; the frames read after the last full chunk are never queued:
    [stop] flushes nothing. *)
Theorem live_chunks_and_lost_tail (n : nat) (z : Z) (fs : list frame)
    (w : L.t) :
  L.reads_per_chunk (L.chunk_duration w) = Some z ->
  n = Z.to_nat z ->
  1 <= n ->
  L.recording_thread w = Running ->
  L.is_recording w = true ->
  L.frames w = [] ->
  L.reads_left w = n ->
  let w1 := L.record_audio_chunk (map ReadOk fs) w in
  let w2 :=
    L.record_audio_chunk []
      (L.set_threads false (L.recording_thread w1)
                     (L.transcription_thread w1) w1) in
  exists chunks,
    L.audio_queue w2 = L.audio_queue w ++ chunks
    /\ L.audio_queue w1 = L.audio_queue w2
    /\ Forall (fun c => length (seg_frames c) = n) chunks
    /\ length chunks = length fs / n
    /\ concat (map seg_frames chunks) = take (n * (length fs / n)) fs
    /\ L.recording_thread w2 = Finished.
Proof.
  intros Hz Hn Hpos Hth Hrec Hfr Hleft w1 w2.
  assert (Hin : in_chunk n w) by (unfold in_chunk; rewrite Hfr; simpl; lia).
  destruct (live_record_loop_partition n fs w Hin Hrec)
    as (chunks & Hq & Hall & Hfs & (Hsum & Hl) & Hrec1 & Hth1 & Htt1 & Hcd1 & Hex).
  assert (Hw1 : w1 = fst (L.record_loop n (map ReadOk fs) w)).
  { unfold w1, L.record_audio_chunk. rewrite Hth, Hz, <- Hn.
    destruct (L.record_loop n (map ReadOk fs) w) as [w' ex]. simpl in *.
    now subst ex. }
  rewrite <- Hw1 in *. clear Hw1.
  rewrite Hfr in Hfs. simpl in Hfs.
  assert (Hlenc : length (concat (map seg_frames chunks)) = n * length chunks).
  { clear -Hall. induction Hall as [|c cs Hc _ IH]; simpl; [lia|].
    rewrite length_app, IH, Hc. lia. }
  assert (Hcount : length chunks = length fs / n).
  { apply (Nat.div_unique (length fs) n (length chunks) (length (L.frames w1)));
      [lia|]. rewrite Hfs, length_app, Hlenc. lia. }
  exists chunks.
  assert (Hq2 : L.audio_queue w2 = L.audio_queue w1
                /\ L.recording_thread w2 = Finished).
  { unfold w2, L.record_audio_chunk. simpl. rewrite Hth1, Hth, Hcd1, Hz.
    destruct (Z.to_nat z); simpl; auto. }
  destruct Hq2 as [Hq2 Hfin].
  repeat split; auto; try congruence.
  rewrite <- Hcount, <- Hlenc, Hfs. now rewrite take_app_length.
Qed.

(** With a chunk duration that gives no read (zero, or a negative one,
    which [main] accepts), the recording thread never reads the device and
    never queues anything, whatever the device would deliver. *)
Theorem live_zero_duration_records_nothing (z : Z) (reads : list read_outcome)
    (w : L.t) :
  L.reads_per_chunk (L.chunk_duration w) = Some z ->
  (z <= 0)%Z ->
  L.is_recording w = true ->
  L.record_audio_chunk reads w = w.
Proof.
  intros Hz Hle Hrec. unfold L.record_audio_chunk. rewrite Hz.
  destruct (L.recording_thread w); try reflexivity.
  replace (Z.to_nat z) with 0 by lia.
  destruct reads; simpl; now rewrite Hrec.
Qed.

(** Forty reads with chunks of one second, that is 15 reads: two chunks
    are queued, the last ten reads are lost. *)
Lemma live_chunks_and_lost_tail_witness :
  let fs := repeat Demo.malformed 40 in
  let w1 := L.record_audio_chunk (map ReadOk fs) (Demo.live_started 1) in
  let w2 :=
    L.record_audio_chunk []
      (L.set_threads false (L.recording_thread w1)
                     (L.transcription_thread w1) w1) in
  exists chunks,
    L.audio_queue w2 = L.audio_queue (Demo.live_started 1) ++ chunks
    /\ L.audio_queue w1 = L.audio_queue w2
    /\ Forall (fun c => length (seg_frames c) = 15) chunks
    /\ length chunks = length fs / 15
    /\ concat (map seg_frames chunks) = take (15 * (length fs / 15)) fs
    /\ L.recording_thread w2 = Finished.
Proof.
  apply (live_chunks_and_lost_tail 15 15 (repeat Demo.malformed 40)
           (Demo.live_started 1)).
  - vm_compute. reflexivity.
  - reflexivity.
  - lia.
  - reflexivity.
  - reflexivity.
  - reflexivity.
  - vm_compute. reflexivity.
Defined.

Lemma live_zero_duration_records_nothing_witness :
  L.record_audio_chunk (map ReadOk (repeat Demo.malformed 40))
    (Demo.live_started 0)
  = Demo.live_started 0.
Proof.
  apply (live_zero_duration_records_nothing 0
           (map ReadOk (repeat Demo.malformed 40)) (Demo.live_started 0)).
  - vm_compute. reflexivity.
  - lia.
  - reflexivity.
Defined.

(** The durations from -600 to 600 seconds, checked one by one. *)
Lemma reads_per_chunk_checked :
  forallb (fun i =>
             let d := (Z.of_nat i - 600)%Z in
             match L.reads_per_chunk d with
             | Some z => (z =? Z.quot (125 * d) 8)%Z
             | None => false
             end) (seq 0 1201) = true.
Proof. vm_compute. reflexivity. Qed.

(** The reads of a chunk: for a chunk duration of [d] seconds, up to ten
    minutes, [int(16000 / 1024 * d)] is 15.625 * d truncated towards zero,
    so a chunk is shorter than [d] seconds unless [d] is a multiple of 8
    (46 reads, 2.944 s, for the default 3), and a negative duration gives a
    negative count, for which the [for] loop does not run. *)
Theorem reads_per_chunk_truncates (d : Z) :
  (-600 <= d <= 600)%Z ->
  L.reads_per_chunk d = Some (Z.quot (125 * d) 8)
  /\ (0 <= d -> 1024 * Z.quot (125 * d) 8 <= 16000 * d)%Z
  /\ ((d <= 0)%Z -> Z.to_nat (Z.quot (125 * d) 8) = 0%nat).
Proof.
  intros Hd.
  pose proof reads_per_chunk_checked as Hall.
  rewrite forallb_forall in Hall.
  specialize (Hall (Z.to_nat (d + 600))).
  replace (Z.of_nat (Z.to_nat (d + 600)) - 600)%Z with d in Hall by lia.
  cbv zeta in Hall.
  split; [|split].
  - destruct (L.reads_per_chunk d) as [z|].
    + f_equal. apply Z.eqb_eq. apply Hall. apply List.in_seq. lia.
    + discriminate Hall. apply List.in_seq. lia.
  - intros Hpos.
    pose proof (Z.quot_pos (125 * d) 8 ltac:(lia) ltac:(lia)).
    pose proof (Z.mul_quot_le (125 * d) 8 ltac:(lia) ltac:(lia)). lia.
  - intros Hneg.
    assert (Z.quot (125 * d) 8 <= 0)%Z; [|lia].
    rewrite <- (Z.opp_involutive (125 * d)), Z.quot_opp_l by lia.
    pose proof (Z.quot_pos (- (125 * d)) 8 ltac:(lia) ltac:(lia)). lia.
Qed.

Lemma reads_per_chunk_truncates_witness :
  L.reads_per_chunk 3 = Some (Z.quot (125 * 3) 8).
Proof. apply (reads_per_chunk_truncates 3). lia. Defined.

(** ** [stop] of the plain VAD transcriber *)

Section VadStop.

Variable vad_is_speech : frame -> Z -> option bool.



End VadStop.

